(** * Service layer of the NestJS blog backend: users, posts, sessions

    A shallow embedding of [src/users/users.service.ts],
    [src/posts/posts.service.ts] and the session service
    ([AuthService]) together with the DTOs they consume, and the
    properties of the permission checks, pagination arithmetic, filter
    construction and credential flow.

    The three services are thin glue over three external collaborators:
    a relational store reached through TypeORM repositories, [bcrypt],
    and the JWT signer.  The store is modelled as two in-memory tables,
    the other two as interfaces. *)

From Stdlib Require Import List String Ascii ZArith Lia Bool Permutation.
Import ListNotations.

Local Open Scope string_scope.
Local Open Scope Z_scope.
Local Open Scope list_scope.

(** ** Exceptions *)

(** The [@nestjs/common] exceptions the services raise, each with its
    message, and the store's own error, which the services catch around
    every write. *)
Inductive Exception : Type :=
| NotFoundException (message : string)
| ForbiddenException (message : string)
| ConflictException (message : string)
| UnauthorizedException (message : string)
| InternalServerErrorException (message : string)
| QueryFailedError.

(** ** Entities *)

(** [enum UserRole { USER = 'user', ADMIN = 'admin' }] *)
Inductive UserRole : Type := USER | ADMIN.

Definition UserRole_eqb (a b : UserRole) : bool :=
  match a, b with
  | USER, USER | ADMIN, ADMIN => true
  | _, _ => false
  end.

Module User.
(** The columns of [@Entity('users')].  The [posts] relation is a join
    over the posts table and not a column. *)
Record t : Type := mk {
  id : string;
  email : string;
  firstName : string;
  lastName : string;
  password : string;
  role : UserRole;
  createdAt : Z;
  updatedAt : Z
}.

Definition eqb (a b : t) : bool :=
  String.eqb (id a) (id b) && String.eqb (email a) (email b)
  && String.eqb (firstName a) (firstName b)
  && String.eqb (lastName a) (lastName b)
  && String.eqb (password a) (password b)
  && UserRole_eqb (role a) (role b)
  && (createdAt a =? createdAt b) && (updatedAt a =? updatedAt b).
End User.

Module Post.
(** Modelled from the spec: the file [posts/entities/post.entity.ts] is
    not among the sources.  The fields are those of section 3 of the
    specification (title, content, published flag with default false,
    author reference by foreign id, creation and update timestamps) and
    of the [mockPost] object of [posts.service.spec.ts]; the [author]
    relation is a join over the users table and not a column. *)
Record t : Type := mk {
  id : string;
  title : string;
  content : string;
  published : bool;
  authorId : string;
  createdAt : Z;
  updatedAt : Z
}.

(** Modelled from the spec: the column default of [published]
    ("published flag (default false)"). *)
Definition published_default : bool := false.

Definition eqb (a b : t) : bool :=
  String.eqb (id a) (id b) && String.eqb (title a) (title b)
  && String.eqb (content a) (content b)
  && Bool.eqb (published a) (published b)
  && String.eqb (authorId a) (authorId b)
  && (createdAt a =? createdAt b) && (updatedAt a =? updatedAt b).
End Post.

(** ** The store and the service monad *)

(** The two tables, rows in insertion order. *)
Record Db : Type := mkDb {
  users : list User.t;
  posts : list Post.t
}.

(** What the outside world decides for one service call: the uuid the
    store generates for an inserted row, the clock, the salt [bcrypt]
    draws, and whether the store rejects the write of this call (lost
    connection, violated constraint, ...).  A rejected write changes no
    row.  Reads are taken to succeed: the services catch nothing around
    them. *)
Record Env : Type := mkEnv {
  uuid : string;
  now : Z;
  salt : string;
  db_fault : bool
}.

Inductive Result (A : Type) : Type :=
| Ok (value : A)
| Err (e : Exception).
Arguments Ok {A} value.
Arguments Err {A} e.

(** An [async] service method: it reads and writes the store and either
    resolves to a value or rejects with an exception. *)
Definition M (A : Type) : Type := Db -> Result A * Db.

Definition ret {A} (a : A) : M A := fun db => (Ok a, db).

Definition throw {A} (e : Exception) : M A := fun db => (Err e, db).

Definition bind {A B} (m : M A) (k : A -> M B) : M B :=
  fun db =>
    match m db with
    | (Ok a, db') => k a db'
    | (Err e, db') => (Err e, db')
    end.

(** [try { m } catch (error) { throw e }] *)
Definition try_catch {A} (m : M A) (e : Exception) : M A :=
  fun db =>
    match m db with
    | (Ok a, db') => (Ok a, db')
    | (Err _, db') => (Err e, db')
    end.

(** [if (c) { throw e }] *)
Definition throw_if (c : bool) (e : Exception) : M unit :=
  if c then throw e else ret tt.

Declare Scope service_scope.
Delimit Scope service_scope with service.
Notation "x <- m ;; k" := (bind m (fun x => k))
  (at level 61, m at next level, right associativity) : service_scope.
Notation "m ;;; k" := (bind m (fun _ => k))
  (at level 61, right associativity) : service_scope.
Local Open Scope service_scope.

(** ** JavaScript helpers *)

(** Truthiness of an optional string: [undefined] and [''] are falsy. *)
Definition truthy (s : option string) : bool :=
  match s with
  | Some s => negb (String.eqb s "")
  | None => false
  end.

(** [Math.ceil(a / b)] on integers, for [b <> 0]: the quotient of [Z] is
    the floor of the rational quotient, one below the ceiling exactly
    when the division leaves a remainder.  For the 32-bit integers of a
    GraphQL [Int] the double [a / b] is an integer only when the exact
    quotient is one, so the ceiling of the double is the ceiling of the
    rational.  ([b = 0] gives [Infinity] or [NaN] in JavaScript; [@Min(1)]
    on the pagination inputs excludes it.) *)
Definition Math_ceil_div (a b : Z) : Z :=
  if a mod b =? 0 then a / b else a / b + 1.

(** ** SQL helpers *)

(** PostgreSQL's [LIKE]: case sensitive; [%] matches any run of
    characters, [_] any one character, and a backslash makes the
    character after it literal.  (A pattern ending in a lone backslash is
    an error in PostgreSQL; no pattern of the form [%...%] ends so.) *)
Fixpoint like (pattern s : string) {struct pattern} : bool :=
  match pattern with
  | EmptyString =>
      match s with EmptyString => true | String _ _ => false end
  | String c pattern' =>
      if Ascii.eqb c "%" then
        (fix any (s : string) : bool :=
           like pattern' s
           || match s with
              | EmptyString => false
              | String _ s' => any s'
              end) s
      else if Ascii.eqb c "_" then
        match s with
        | EmptyString => false
        | String _ s' => like pattern' s'
        end
      else if Ascii.eqb c "\" then
        match pattern' with
        | EmptyString => false
        | String e pattern'' =>
            match s with
            | EmptyString => false
            | String d s' => Ascii.eqb e d && like pattern'' s'
            end
        end
      else
        match s with
        | EmptyString => false
        | String d s' => Ascii.eqb c d && like pattern' s'
        end
  end.

(** [ORDER BY createdAt DESC], as an insertion sort that keeps rows of
    equal key in table order (SQL leaves their order open). *)
Section OrderBy.
Context {A : Type} (key : A -> Z).

Fixpoint insert_desc (x : A) (l : list A) : list A :=
  match l with
  | [] => [x]
  | y :: l' => if key y <=? key x then x :: l else y :: insert_desc x l'
  end.

Fixpoint order_desc (l : list A) : list A :=
  match l with
  | [] => []
  | x :: l' => insert_desc x (order_desc l')
  end.
End OrderBy.

(** [OFFSET skip LIMIT take] *)
Definition offset_limit {A} (skip take : Z) (l : list A) : list A :=
  firstn (Z.to_nat take) (skipn (Z.to_nat skip) l).

(** ** External collaborators *)

(** [bcrypt.hash(data, rounds)], with the salt it draws made explicit, and
    [bcrypt.compare(data, encrypted)]. *)
Class Bcrypt : Type := {
  bcrypt_hash : string -> Z -> string -> string;
  bcrypt_compare : string -> string -> bool
}.

(** The claim set [generateTokens] signs. *)
Record JwtPayload : Type := mkJwtPayload {
  sub : string;
  jwt_email : string;
  jwt_role : UserRole
}.

(** [jwtService.sign(payload, { expiresIn })] at a given time; without
    the option the expiry of the module configuration applies. *)
Class JwtService : Type := {
  jwt_sign : JwtPayload -> option string -> Z -> string
}.

(** ** Repositories (TypeORM over PostgreSQL) *)

Module UserRepository.
(** [FindOptionsWhere<User>], for the two columns the services query. *)
Record Where : Type := mkWhere {
  id : option string;
  email : option string
}.

Definition matches (w : Where) (u : User.t) : bool :=
  match id w with Some i => String.eqb (User.id u) i | None => true end
  && match email w with Some e => String.eqb (User.email u) e | None => true end.

Definition findOne (w : Where) : M (option User.t) :=
  fun db => (Ok (find (matches w) (users db)), db).

(** [findAndCount({ skip, take, order: { createdAt: 'DESC' } })] *)
Definition findAndCount (skip take : Z) : M (list User.t * Z) :=
  fun db =>
    let rows := order_desc User.createdAt (users db) in
    (Ok (offset_limit skip take rows, Z.of_nat (List.length rows)), db).

(** The object [repository.create({...})] builds: no primary key and no
    timestamps yet, [role] possibly unset. *)
Record Draft : Type := mkDraft {
  d_email : string;
  d_password : string;
  d_firstName : string;
  d_lastName : string;
  d_role : option UserRole
}.

(** [save] of an entity without primary key: INSERT.  The store
    generates the uuid, fills the timestamps and applies the column
    default [UserRole.USER]. *)
Definition insert (env : Env) (d : Draft) : M User.t :=
  fun db =>
    if db_fault env then (Err QueryFailedError, db)
    else
      let u := User.mk (uuid env) (d_email d) (d_firstName d) (d_lastName d)
                 (d_password d)
                 (match d_role d with Some r => r | None => USER end)
                 (now env) (now env) in
      (Ok u, mkDb (users db ++ [u]) (posts db)).

(** [save] of a loaded entity (the services save only what they have
    just loaded): UPDATE of the row with its primary key when a column
    changed, which also advances [updatedAt], and no statement when none
    did. *)
Definition save (env : Env) (u : User.t) : M User.t :=
  fun db =>
    if db_fault env then (Err QueryFailedError, db)
    else
      let u' := User.mk (User.id u) (User.email u) (User.firstName u)
                  (User.lastName u) (User.password u) (User.role u)
                  (User.createdAt u) (now env) in
      let stored r :=
        if String.eqb (User.id r) (User.id u)
        then (if User.eqb r u then r else u') else r in
      (Ok (if existsb (fun r => User.eqb r u) (users db) then u else u'),
       mkDb (map stored (users db)) (posts db)).

(** [remove(entity)]: DELETE of the row with its primary key. *)
Definition remove (env : Env) (u : User.t) : M unit :=
  fun db =>
    if db_fault env then (Err QueryFailedError, db)
    else
      (Ok tt,
       mkDb (filter (fun r => negb (String.eqb (User.id r) (User.id u)))
               (users db))
            (posts db)).
End UserRepository.

Module PostRepository.
(** [FindOptionsWhere<Post>], for the columns the service queries;
    [title] holds the pattern of a [Like(...)] operator. *)
Record Where : Type := mkWhere {
  id : option string;
  published : option bool;
  authorId : option string;
  title : option string
}.

(** [const where: FindOptionsWhere<Post> = {}] *)
Definition empty : Where := mkWhere None None None None.

Definition matches (w : Where) (p : Post.t) : bool :=
  match id w with Some i => String.eqb (Post.id p) i | None => true end
  && match published w with
     | Some b => Bool.eqb (Post.published p) b
     | None => true
     end
  && match authorId w with
     | Some a => String.eqb (Post.authorId p) a
     | None => true
     end
  && match title w with
     | Some pattern => like pattern (Post.title p)
     | None => true
     end.

Definition findOne (w : Where) : M (option Post.t) :=
  fun db => (Ok (find (matches w) (posts db)), db).

(** [findAndCount({ where, skip, take, order: { createdAt: 'DESC' } })] *)
Definition findAndCount (w : Where) (skip take : Z)
  : M (list Post.t * Z) :=
  fun db =>
    let rows := order_desc Post.createdAt (filter (matches w) (posts db)) in
    (Ok (offset_limit skip take rows, Z.of_nat (List.length rows)), db).

(** The object [repository.create({...})] builds. *)
Record Draft : Type := mkDraft {
  d_title : string;
  d_content : string;
  d_published : option bool;
  d_authorId : string
}.

(** [save] of an entity without primary key: INSERT, with the column
    default for an unset [published]. *)
Definition insert (env : Env) (d : Draft) : M Post.t :=
  fun db =>
    if db_fault env then (Err QueryFailedError, db)
    else
      let p := Post.mk (uuid env) (d_title d) (d_content d)
                 (match d_published d with
                  | Some b => b
                  | None => Post.published_default
                  end)
                 (d_authorId d) (now env) (now env) in
      (Ok p, mkDb (users db) (posts db ++ [p])).

(** [save] of a loaded entity: UPDATE when a column changed. *)
Definition save (env : Env) (p : Post.t) : M Post.t :=
  fun db =>
    if db_fault env then (Err QueryFailedError, db)
    else
      let p' := Post.mk (Post.id p) (Post.title p) (Post.content p)
                  (Post.published p) (Post.authorId p)
                  (Post.createdAt p) (now env) in
      let stored r :=
        if String.eqb (Post.id r) (Post.id p)
        then (if Post.eqb r p then r else p') else r in
      (Ok (if existsb (fun r => Post.eqb r p) (posts db) then p else p'),
       mkDb (users db) (map stored (posts db))).

(** [remove(entity)]: DELETE of the row with its primary key. *)
Definition remove (env : Env) (p : Post.t) : M unit :=
  fun db =>
    if db_fault env then (Err QueryFailedError, db)
    else
      (Ok tt,
       mkDb (users db)
            (filter (fun r => negb (String.eqb (Post.id r) (Post.id p)))
               (posts db))).
End PostRepository.

(** ** Data transfer objects *)

(** An optional property is [None] when the object does not have it. *)

Module CreateUserInput.
Record t : Type := mk {
  email : string;
  firstName : string;
  lastName : string;
  password : string;
  role : option UserRole
}.
End CreateUserInput.

Module UpdateUserInput.
Record t : Type := mk {
  email : option string;
  firstName : option string;
  lastName : option string;
  password : option string;
  role : option UserRole
}.
End UpdateUserInput.

Module RegisterInput.
(** The declaration ([auth/dto]) is not among the sources; the fields
    are the five that [AuthService.register] takes out of its input. *)
Record t : Type := mk {
  email : string;
  password : string;
  firstName : string;
  lastName : string;
  role : option UserRole
}.
End RegisterInput.

Module LoginInput.
Record t : Type := mk {
  email : string;
  password : string
}.
End LoginInput.

Module AuthResponse.
Record t : Type := mk {
  accessToken : string;
  refreshToken : string;
  user : User.t
}.
End AuthResponse.

Module CreatePostInput.
Record t : Type := mk {
  title : string;
  content : string;
  published : option bool
}.
End CreatePostInput.

Module UpdatePostInput.
Record t : Type := mk {
  title : option string;
  content : option string;
  published : option bool
}.
End UpdatePostInput.

Module PostFilterInput.
Record t : Type := mk {
  searchTerm : option string;
  published : option bool;
  authorId : option string
}.
End PostFilterInput.

(** [PaginationInput] and [PostPaginationInput] *)
Module PaginationInput.
Record t : Type := mk {
  page : option Z;
  limit : option Z
}.
End PaginationInput.

(** [PaginatedUsersResponse] and [PaginatedPostsResponse] *)
Module Paginated.
Record t (A : Type) : Type := mk {
  items : list A;
  total : Z;
  page : Z;
  limit : Z;
  totalPages : Z;
  hasNextPage : bool;
  hasPreviousPage : bool
}.
Arguments mk {A}.
Arguments items {A}.
Arguments total {A}.
Arguments page {A}.
Arguments limit {A}.
Arguments totalPages {A}.
Arguments hasNextPage {A}.
Arguments hasPreviousPage {A}.
End Paginated.

Definition or_else {A} (o : option A) (d : A) : A :=
  match o with Some a => a | None => d end.

Definition is_some {A} (o : option A) : bool :=
  match o with Some _ => true | None => false end.

(** The double quote character of the not-found messages. *)
Definition dquote : string := String (Ascii.ascii_of_nat 34) EmptyString.

(** ** Identity service: [UsersService] *)

Module UsersService.

Definition create {hasher : Bcrypt} (createUserInput : CreateUserInput.t)
    (env : Env) : M User.t :=
  existingUser <- UserRepository.findOne
    (UserRepository.mkWhere None
       (Some (CreateUserInput.email createUserInput))) ;;
  throw_if (is_some existingUser)
    (ConflictException "Email already registered") ;;;
  let hashedPassword :=
    bcrypt_hash (CreateUserInput.password createUserInput) 10 (salt env) in
  let user :=
    UserRepository.mkDraft
      (CreateUserInput.email createUserInput)
      hashedPassword
      (CreateUserInput.firstName createUserInput)
      (CreateUserInput.lastName createUserInput)
      (CreateUserInput.role createUserInput) in
  try_catch (UserRepository.insert env user)
    (InternalServerErrorException "Failed to create user").

Definition findAll (paginationInput : PaginationInput.t)
  : M (Paginated.t User.t) :=
  let page := or_else (PaginationInput.page paginationInput) 1 in
  let limit := or_else (PaginationInput.limit paginationInput) 10 in
  let skip := (page - 1) * limit in
  r <- UserRepository.findAndCount skip limit ;;
  let '(items, total) := r in
  let totalPages := Math_ceil_div total limit in
  ret (Paginated.mk items total page limit totalPages
         (page <? totalPages) (1 <? page)).

Definition findOne (id : string) : M User.t :=
  user <- UserRepository.findOne (UserRepository.mkWhere (Some id) None) ;;
  match user with
  | None =>
      throw (NotFoundException
               ("User with ID " ++ dquote ++ id ++ dquote ++ " not found")%string)
  | Some user => ret user
  end.

Definition findByEmail (email : string) : M (option User.t) :=
  UserRepository.findOne (UserRepository.mkWhere None (Some email)).

(** [Object.assign(user, updateUserInput)] *)
Definition assign (user : User.t) (i : UpdateUserInput.t) : User.t :=
  User.mk (User.id user)
    (or_else (UpdateUserInput.email i) (User.email user))
    (or_else (UpdateUserInput.firstName i) (User.firstName user))
    (or_else (UpdateUserInput.lastName i) (User.lastName user))
    (or_else (UpdateUserInput.password i) (User.password user))
    (or_else (UpdateUserInput.role i) (User.role user))
    (User.createdAt user) (User.updatedAt user).

Definition update {hasher : Bcrypt} (id : string)
    (updateUserInput : UpdateUserInput.t) (currentUser : User.t)
    (env : Env) : M User.t :=
  user <- findOne id ;;
  throw_if (negb (UserRole_eqb (User.role currentUser) ADMIN)
            && negb (String.eqb (User.id currentUser) id))
    (ForbiddenException "You can only update your own profile") ;;;
  match UpdateUserInput.email updateUserInput with
  | Some email =>
      if negb (String.eqb email "")
         && negb (String.eqb email (User.email user))
      then
        existingUser <- UserRepository.findOne
          (UserRepository.mkWhere None (Some email)) ;;
        throw_if (is_some existingUser)
          (ConflictException "Email already registered")
      else ret tt
  | None => ret tt
  end ;;;
  throw_if (is_some (UpdateUserInput.role updateUserInput)
            && negb (UserRole_eqb (User.role currentUser) ADMIN))
    (ForbiddenException "Only admins can change user roles") ;;;
  let updateUserInput :=
    match UpdateUserInput.password updateUserInput with
    | Some password =>
        if negb (String.eqb password "")
        then UpdateUserInput.mk
               (UpdateUserInput.email updateUserInput)
               (UpdateUserInput.firstName updateUserInput)
               (UpdateUserInput.lastName updateUserInput)
               (Some (bcrypt_hash password 10 (salt env)))
               (UpdateUserInput.role updateUserInput)
        else updateUserInput
    | None => updateUserInput
    end in
  try_catch (UserRepository.save env (assign user updateUserInput))
    (InternalServerErrorException "Failed to update user").

Definition remove (id : string) (currentUser : User.t) (env : Env)
  : M bool :=
  user <- findOne id ;;
  throw_if (negb (UserRole_eqb (User.role currentUser) ADMIN)
            && negb (String.eqb (User.id currentUser) id))
    (ForbiddenException "You can only delete your own account") ;;;
  throw_if (String.eqb (User.id currentUser) id
            && negb (UserRole_eqb (User.role currentUser) ADMIN))
    (ForbiddenException "You cannot delete your own account") ;;;
  try_catch (UserRepository.remove env user ;;; ret true)
    (InternalServerErrorException "Failed to delete user").

End UsersService.

(** ** Content service: [PostsService] *)

Module PostsService.

Definition create (createPostInput : CreatePostInput.t) (author : User.t)
    (env : Env) : M Post.t :=
  let post :=
    PostRepository.mkDraft
      (CreatePostInput.title createPostInput)
      (CreatePostInput.content createPostInput)
      (CreatePostInput.published createPostInput)
      (User.id author) in
  try_catch (PostRepository.insert env post)
    (InternalServerErrorException "Failed to create post").

(** The [where] object [findAll] fills in from its optional filter
    before it queries. *)
Definition where_of (filterInput : option PostFilterInput.t)
  : PostRepository.Where :=
  match filterInput with
  | None => PostRepository.empty
  | Some f =>
      PostRepository.mkWhere None
        (match PostFilterInput.published f with
         | Some b => Some b
         | None => None
         end)
        (if truthy (PostFilterInput.authorId f)
         then PostFilterInput.authorId f else None)
        (match PostFilterInput.searchTerm f with
         | Some searchTerm =>
             if negb (String.eqb searchTerm "")
             then Some ("%" ++ searchTerm ++ "%")%string
             else None
         | None => None
         end)
  end.

Definition findAll (paginationInput : PaginationInput.t)
    (filterInput : option PostFilterInput.t) : M (Paginated.t Post.t) :=
  let page := or_else (PaginationInput.page paginationInput) 1 in
  let limit := or_else (PaginationInput.limit paginationInput) 10 in
  let skip := (page - 1) * limit in
  r <- PostRepository.findAndCount (where_of filterInput) skip limit ;;
  let '(items, total) := r in
  let totalPages := Math_ceil_div total limit in
  ret (Paginated.mk items total page limit totalPages
         (page <? totalPages) (1 <? page)).

Definition findOne (id : string) : M Post.t :=
  post <- PostRepository.findOne
    (PostRepository.mkWhere (Some id) None None None) ;;
  match post with
  | None =>
      throw (NotFoundException
               ("Post with ID " ++ dquote ++ id ++ dquote ++ " not found")%string)
  | Some post => ret post
  end.

Definition findByUser (userId : string) (paginationInput : PaginationInput.t)
  : M (Paginated.t Post.t) :=
  let page := or_else (PaginationInput.page paginationInput) 1 in
  let limit := or_else (PaginationInput.limit paginationInput) 10 in
  let skip := (page - 1) * limit in
  r <- PostRepository.findAndCount
    (PostRepository.mkWhere None None (Some userId) None) skip limit ;;
  let '(items, total) := r in
  let totalPages := Math_ceil_div total limit in
  ret (Paginated.mk items total page limit totalPages
         (page <? totalPages) (1 <? page)).

(** [Object.assign(post, updatePostInput)] *)
Definition assign (post : Post.t) (i : UpdatePostInput.t) : Post.t :=
  Post.mk (Post.id post)
    (or_else (UpdatePostInput.title i) (Post.title post))
    (or_else (UpdatePostInput.content i) (Post.content post))
    (or_else (UpdatePostInput.published i) (Post.published post))
    (Post.authorId post) (Post.createdAt post) (Post.updatedAt post).

(** [post.published = b] *)
Definition set_published (post : Post.t) (b : bool) : Post.t :=
  Post.mk (Post.id post) (Post.title post) (Post.content post) b
    (Post.authorId post) (Post.createdAt post) (Post.updatedAt post).

Definition update (id : string) (updatePostInput : UpdatePostInput.t)
    (currentUser : User.t) (env : Env) : M Post.t :=
  post <- findOne id ;;
  throw_if (negb (UserRole_eqb (User.role currentUser) ADMIN)
            && negb (String.eqb (Post.authorId post) (User.id currentUser)))
    (ForbiddenException "You can only update your own posts") ;;;
  try_catch (PostRepository.save env (assign post updatePostInput))
    (InternalServerErrorException "Failed to update post").

Definition remove (id : string) (currentUser : User.t) (env : Env)
  : M bool :=
  post <- findOne id ;;
  throw_if (negb (UserRole_eqb (User.role currentUser) ADMIN)
            && negb (String.eqb (Post.authorId post) (User.id currentUser)))
    (ForbiddenException "You can only delete your own posts") ;;;
  try_catch (PostRepository.remove env post ;;; ret true)
    (InternalServerErrorException "Failed to delete post").

Definition publishPost (id : string) (currentUser : User.t) (env : Env)
  : M Post.t :=
  post <- findOne id ;;
  throw_if (negb (UserRole_eqb (User.role currentUser) ADMIN)
            && negb (String.eqb (Post.authorId post) (User.id currentUser)))
    (ForbiddenException "You can only publish your own posts") ;;;
  try_catch (PostRepository.save env (set_published post true))
    (InternalServerErrorException "Failed to publish post").

Definition unpublishPost (id : string) (currentUser : User.t) (env : Env)
  : M Post.t :=
  post <- findOne id ;;
  throw_if (negb (UserRole_eqb (User.role currentUser) ADMIN)
            && negb (String.eqb (Post.authorId post) (User.id currentUser)))
    (ForbiddenException "You can only unpublish your own posts") ;;;
  try_catch (PostRepository.save env (set_published post false))
    (InternalServerErrorException "Failed to unpublish post").

End PostsService.

(** ** Session service: [AuthService] *)

Module AuthService.

Definition hashPassword {hasher : Bcrypt} (password : string) (env : Env) : string :=
  let saltRounds := 10 in
  bcrypt_hash password saltRounds (salt env).

Definition comparePasswords {hasher : Bcrypt}
    (plainTextPassword hashedPassword : string) : bool :=
  bcrypt_compare plainTextPassword hashedPassword.

Definition generateTokens {signer : JwtService} (user : User.t) (env : Env)
  : string * string :=
  let payload := mkJwtPayload (User.id user) (User.email user)
                   (User.role user) in
  let accessToken := jwt_sign payload None (now env) in
  let refreshToken := jwt_sign payload (Some "7d") (now env) in
  (accessToken, refreshToken).

Definition register {hasher : Bcrypt} {signer : JwtService}
    (registerInput : RegisterInput.t) (env : Env) : M AuthResponse.t :=
  existingUser <- UserRepository.findOne
    (UserRepository.mkWhere None (Some (RegisterInput.email registerInput))) ;;
  throw_if (is_some existingUser)
    (ConflictException "Email already registered") ;;;
  let hashedPassword :=
    hashPassword (RegisterInput.password registerInput) env in
  let user :=
    UserRepository.mkDraft
      (RegisterInput.email registerInput)
      hashedPassword
      (RegisterInput.firstName registerInput)
      (RegisterInput.lastName registerInput)
      (Some (or_else (RegisterInput.role registerInput) USER)) in
  try_catch
    (user <- UserRepository.insert env user ;;
     let '(accessToken, refreshToken) := generateTokens user env in
     ret (AuthResponse.mk accessToken refreshToken user))
    (InternalServerErrorException "Failed to create user").

Definition login {hasher : Bcrypt} {signer : JwtService}
    (loginInput : LoginInput.t) (env : Env) : M AuthResponse.t :=
  user <- UserRepository.findOne
    (UserRepository.mkWhere None (Some (LoginInput.email loginInput))) ;;
  match user with
  | None => throw (UnauthorizedException "Invalid credentials")
  | Some user =>
      let isPasswordValid :=
        comparePasswords (LoginInput.password loginInput)
          (User.password user) in
      throw_if (negb isPasswordValid)
        (UnauthorizedException "Invalid credentials") ;;;
      let '(accessToken, refreshToken) := generateTokens user env in
      ret (AuthResponse.mk accessToken refreshToken user)
  end.

Definition refreshToken {signer : JwtService} (userId : string) (env : Env)
  : M AuthResponse.t :=
  user <- UserRepository.findOne
    (UserRepository.mkWhere (Some userId) None) ;;
  match user with
  | None => throw (UnauthorizedException "User not found")
  | Some user =>
      let '(accessToken, refreshToken) := generateTokens user env in
      ret (AuthResponse.mk accessToken refreshToken user)
  end.

Definition validateUser (userId : string) : M User.t :=
  user <- UserRepository.findOne
    (UserRepository.mkWhere (Some userId) None) ;;
  match user with
  | None => throw (UnauthorizedException "User not found")
  | Some user => ret user
  end.

End AuthService.

(** [AuthResolver]: both mutations are [@Public()]; they take no acting
    user and hand their argument to the service as it is. *)
Module AuthResolver.
Definition register {hasher : Bcrypt} {signer : JwtService}
    (registerInput : RegisterInput.t) (env : Env) : M AuthResponse.t :=
  AuthService.register registerInput env.

Definition login {hasher : Bcrypt} {signer : JwtService}
    (loginInput : LoginInput.t) (env : Env) : M AuthResponse.t :=
  AuthService.login loginInput env.
End AuthResolver.

(** ** The operations as one command type *)

(** Every entry point of the three services, with its arguments. *)
Inductive Operation : Type :=
| UsersCreate (i : CreateUserInput.t)
| UsersFindAll (p : PaginationInput.t)
| UsersFindOne (id : string)
| UsersFindByEmail (email : string)
| UsersUpdate (id : string) (i : UpdateUserInput.t) (currentUser : User.t)
| UsersRemove (id : string) (currentUser : User.t)
| PostsCreate (i : CreatePostInput.t) (author : User.t)
| PostsFindAll (p : PaginationInput.t) (f : option PostFilterInput.t)
| PostsFindOne (id : string)
| PostsFindByUser (userId : string) (p : PaginationInput.t)
| PostsUpdate (id : string) (i : UpdatePostInput.t) (currentUser : User.t)
| PostsRemove (id : string) (currentUser : User.t)
| PostsPublish (id : string) (currentUser : User.t)
| PostsUnpublish (id : string) (currentUser : User.t)
| AuthRegister (i : RegisterInput.t)
| AuthLogin (i : LoginInput.t)
| AuthRefreshToken (userId : string)
| AuthValidateUser (userId : string).

(** What a call leaves behind once its value is forgotten: the exception
    it rejected with, if any, and the store. *)
Definition outcome {A} (r : Result A * Db) : option Exception * Db :=
  (match fst r with Ok _ => None | Err e => Some e end, snd r).

Definition exec {hasher : Bcrypt} {signer : JwtService} (op : Operation) (env : Env) (db : Db)
  : option Exception * Db :=
  match op with
  | UsersCreate i => outcome (UsersService.create i env db)
  | UsersFindAll p => outcome (UsersService.findAll p db)
  | UsersFindOne id => outcome (UsersService.findOne id db)
  | UsersFindByEmail email => outcome (UsersService.findByEmail email db)
  | UsersUpdate id i u => outcome (UsersService.update id i u env db)
  | UsersRemove id u => outcome (UsersService.remove id u env db)
  | PostsCreate i u => outcome (PostsService.create i u env db)
  | PostsFindAll p f => outcome (PostsService.findAll p f db)
  | PostsFindOne id => outcome (PostsService.findOne id db)
  | PostsFindByUser id p => outcome (PostsService.findByUser id p db)
  | PostsUpdate id i u => outcome (PostsService.update id i u env db)
  | PostsRemove id u => outcome (PostsService.remove id u env db)
  | PostsPublish id u => outcome (PostsService.publishPost id u env db)
  | PostsUnpublish id u => outcome (PostsService.unpublishPost id u env db)
  | AuthRegister i => outcome (AuthService.register i env db)
  | AuthLogin i => outcome (AuthService.login i env db)
  | AuthRefreshToken id => outcome (AuthService.refreshToken id env db)
  | AuthValidateUser id => outcome (AuthService.validateUser id db)
  end.

(** The three rejections of a request the caller is to blame for. *)
Definition is_rejection (e : Exception) : bool :=
  match e with
  | NotFoundException _ | ForbiddenException _ | ConflictException _ => true
  | _ => false
  end.

(** ** The specification's vocabulary *)

(** The ownership check in the specification's words:
    [canModify(post, user) := user.role == admin OR post.authorId == user.id]. *)
Definition canModify (post : Post.t) (user : User.t) : bool :=
  UserRole_eqb (User.role user) ADMIN
  || String.eqb (Post.authorId post) (User.id user).

(** [needle] occurs in [hay] as a run of consecutive characters, compared
    character by character (so case matters). *)
Fixpoint contains (needle hay : string) : bool :=
  String.prefix needle hay
  || match hay with
     | EmptyString => false
     | String _ hay' => contains needle hay'
     end.

(** The filter predicate in the specification's words: each field
    constrains the post exactly when it is present. *)
Definition filter_as_specified (f : option PostFilterInput.t) (p : Post.t)
  : bool :=
  match f with
  | None => true
  | Some f =>
      match PostFilterInput.published f with
      | Some b => Bool.eqb (Post.published p) b
      | None => true
      end
      && match PostFilterInput.authorId f with
         | Some a => String.eqb (Post.authorId p) a
         | None => true
         end
      && match PostFilterInput.searchTerm f with
         | Some s => contains s (Post.title p)
         | None => true
         end
  end.

(** The same with an empty [authorId] counted as absent.  (An empty
    [searchTerm] needs no such clause: it occurs in every title.) *)
Definition filter_as_built (f : option PostFilterInput.t) (p : Post.t)
  : bool :=
  match f with
  | None => true
  | Some f =>
      match PostFilterInput.published f with
      | Some b => Bool.eqb (Post.published p) b
      | None => true
      end
      && match PostFilterInput.authorId f with
         | Some a => String.eqb a "" || String.eqb (Post.authorId p) a
         | None => true
         end
      && match PostFilterInput.searchTerm f with
         | Some s => contains s (Post.title p)
         | None => true
         end
  end.

(** [pattern] matches [s] from some position on: what a leading [%]
    amounts to. *)
Fixpoint like_from (pattern s : string) : bool :=
  like pattern s
  || match s with
     | EmptyString => false
     | String _ s' => like_from pattern s'
     end.

(** No character of [s] is special in a [LIKE] pattern. *)
Fixpoint like_literal (s : string) : bool :=
  match s with
  | EmptyString => true
  | String c s' =>
      negb (Ascii.eqb c "%") && negb (Ascii.eqb c "_")
      && negb (Ascii.eqb c "\") && like_literal s'
  end.

(** The search term of a filter, if there is one, is free of wildcards. *)
Definition literal_search (f : option PostFilterInput.t) : bool :=
  match f with
  | Some f =>
      match PostFilterInput.searchTerm f with
      | Some s => like_literal s
      | None => true
      end
  | None => true
  end.

(** The items a listing call answers with (none when it rejects). *)
Definition listed {A} (r : Result (Paginated.t A) * Db) : list A :=
  match fst r with
  | Ok r => Paginated.items r
  | Err _ => []
  end.

(** The envelope invariants of a paginated listing: [totalPages] is the
    least number of pages of [limit] rows holding [total] rows, the two
    flags compare [page] with the ends, and the slice fits the page. *)
Definition envelope_ok {A} (r : Paginated.t A) : Prop :=
  (Paginated.totalPages r - 1) * Paginated.limit r < Paginated.total r
    <= Paginated.totalPages r * Paginated.limit r
  /\ Paginated.hasNextPage r = (Paginated.page r <? Paginated.totalPages r)
  /\ Paginated.hasPreviousPage r = (1 <? Paginated.page r)
  /\ Z.of_nat (List.length (Paginated.items r)) <= Paginated.limit r.

(** A listing answers with an envelope for the page and limit asked for
    (or the defaults 1 and 10) over [T] matching rows, and leaves the
    store alone. *)
Definition paginates {A} (pg : PaginationInput.t) (T : Z) (db : Db)
    (run : M (Paginated.t A)) : Prop :=
  exists r,
    run db = (Ok r, db)
    /\ Paginated.total r = T
    /\ Paginated.page r = or_else (PaginationInput.page pg) 1
    /\ Paginated.limit r = or_else (PaginationInput.limit pg) 10
    /\ envelope_ok r.

(** Some stored user has the email [e]. *)
Definition email_taken (e : string) (db : Db) : Prop :=
  exists u, In u (users db) /\ User.email u = e.

(** The keys of the data model: ids are primary keys, emails are unique. *)
Definition keys_ok (db : Db) : Prop :=
  NoDup (map User.id (users db))
  /\ NoDup (map User.email (users db))
  /\ NoDup (map Post.id (posts db)).

(** An operation of the content service on post [P] by user [U] is gated
    by ownership: it goes through exactly for an admin or the author, and
    anyone else is refused with the store as it was. *)
Definition gated {A} (P : Post.t) (U : User.t) (db : Db) (run : M A) : Prop :=
  ((exists v db', run db = (Ok v, db'))
   <-> (User.role U = ADMIN \/ Post.authorId P = User.id U))
  /\ (User.role U <> ADMIN -> Post.authorId P <> User.id U ->
      exists message, run db = (Err (ForbiddenException message), db)).

(** Sample collaborators and data for concrete runs. *)
Module Sample.
#[local] Open Scope string_scope.

Fixpoint ends_with (suffix s : string) : bool :=
  String.eqb suffix s
  || match s with
     | EmptyString => false
     | String _ s' => ends_with suffix s'
     end.

(** A toy password scheme: the salt in front of the clear text. *)
Definition bcrypt : Bcrypt :=
  {| bcrypt_hash data _ salt := (salt ++ "$" ++ data)%string;
     bcrypt_compare data encrypted := ends_with ("$" ++ data)%string encrypted |}.

(** A toy signer that writes the subject and the expiry down. *)
Definition jwt : JwtService :=
  {| jwt_sign payload expiresIn _ :=
       (sub payload ++ "." ++ or_else expiresIn "1d")%string |}.

Definition admin : User.t :=
  User.mk "2" "admin@example.com" "Admin" "User" "s$admin123" ADMIN 100 100.
Definition john : User.t :=
  User.mk "1" "john@example.com" "John" "Doe" "s$password123" USER 200 200.
Definition jane : User.t :=
  User.mk "3" "jane@example.com" "Jane" "Smith" "s$password123" USER 300 300.

Definition post1 : Post.t :=
  Post.mk "p1" "Getting Started with NestJS" "..." true "1" 1000 1000.
Definition post2 : Post.t :=
  Post.mk "p2" "GraphQL Best Practices" "..." true "3" 2000 2000.
Definition post3 : Post.t :=
  Post.mk "p3" "Draft: GraphQL notes" "..." false "1" 3000 3000.

Definition db : Db := mkDb [admin; john; jane] [post1; post2; post3].

Definition env : Env := mkEnv "fresh-uuid" 5000 "s" false.
End Sample.


(** Case analysis on every test a service call makes. *)
Ltac split_run :=
  repeat match goal with
         | |- context [match ?x with _ => _ end] =>
             match type of x with
             | option _ => destruct x
             | bool => destruct x
             | UserRole => destruct x
             | sumbool _ _ => destruct x
             end; cbn [fst snd is_some]
         | |- context [if ?b then _ else _] => destruct b; cbn [fst snd is_some]
         end.

(** ** Exception filter: [GraphQLExceptionFilter] *)

(** The members of [HttpStatus] ([@nestjs/common]) the filter names, and
    the one for a request that is throttled, which it does not name. *)
Module HttpStatus.
Definition BAD_REQUEST : Z := 400.
Definition UNAUTHORIZED : Z := 401.
Definition FORBIDDEN : Z := 403.
Definition NOT_FOUND : Z := 404.
Definition CONFLICT : Z := 409.
Definition UNPROCESSABLE_ENTITY : Z := 422.
Definition TOO_MANY_REQUESTS : Z := 429.
Definition INTERNAL_SERVER_ERROR : Z := 500.
End HttpStatus.

Module GraphQLExceptionFilter.
(** What can stand as the [message] of a response: a string, a list of
    strings (validation errors), or nothing. *)
Inductive Message : Type :=
| MessageString (s : string)
| MessageList (l : list string)
| MessageUndefined.

(** [exception.getResponse()]: a string or an object with a [message]. *)
Inductive Response : Type :=
| ResponseString (s : string)
| ResponseObject (message : Message).

(** What [catch] can be handed: an [HttpException] with its status and
    response, or another error object with its [code] and [message], if
    it has them. *)
Inductive Thrown : Type :=
| HttpException (status : Z) (response : Response)
| OtherError (code : option string) (message : option string).

(** The two names [catch] reads off [gqlHost.getInfo()]. *)
Record Info : Type := mkInfo {
  parentType_name : string;
  fieldName : string
}.

(** The object [catch] returns; [timestamp] is the instant that
    [toISOString] renders. *)
Record ErrorResponse : Type := mk {
  statusCode : Z;
  message : Message;
  code : string;
  timestamp : Z;
  path : string
}.

Definition getErrorCode (status : Z) : string :=
  if status =? HttpStatus.BAD_REQUEST then "BAD_REQUEST"
  else if status =? HttpStatus.UNAUTHORIZED then "UNAUTHORIZED"
  else if status =? HttpStatus.FORBIDDEN then "FORBIDDEN"
  else if status =? HttpStatus.NOT_FOUND then "NOT_FOUND"
  else if status =? HttpStatus.CONFLICT then "CONFLICT"
  else if status =? HttpStatus.UNPROCESSABLE_ENTITY then "UNPROCESSABLE_ENTITY"
  else "INTERNAL_SERVER_ERROR".

(** [catch(exception, host)], the line it logs left out. *)
Definition catch (exception : Thrown) (info : Info) (now : Z)
  : ErrorResponse :=
  let status := HttpStatus.INTERNAL_SERVER_ERROR in
  let message := MessageString "Internal server error" in
  let code := "INTERNAL_SERVER_ERROR" in
  let '(status, message, code) :=
    match exception with
    | HttpException status response =>
        (status,
         match response with
         | ResponseString s => MessageString s
         | ResponseObject m => m
         end,
         getErrorCode status)
    | OtherError exception_code exception_message =>
        if truthy exception_code
        then (status,
              MessageString
                (if truthy exception_message
                 then or_else exception_message ""
                 else "Database error"),
              or_else exception_code "")
        else (status, message, code)
    end in
  mk status message code now
    (parentType_name info ++ "." ++ fieldName info)%string.
End GraphQLExceptionFilter.


(** The response shows the given status, code and message. *)
Definition shows (r : GraphQLExceptionFilter.ErrorResponse)
    (status : Z) (code message : string) : Prop :=
  GraphQLExceptionFilter.statusCode r = status
  /\ GraphQLExceptionFilter.code r = code
  /\ GraphQLExceptionFilter.message r
     = GraphQLExceptionFilter.MessageString message.

(** The statuses [getErrorCode] names. *)
Definition named_status (status : Z) : Prop :=
  In status [HttpStatus.BAD_REQUEST; HttpStatus.UNAUTHORIZED;
             HttpStatus.FORBIDDEN; HttpStatus.NOT_FOUND; HttpStatus.CONFLICT;
             HttpStatus.UNPROCESSABLE_ENTITY].

(** ** Seeding: [seeds/seed.ts] and its data *)

Module Seed.










End Seed.

(** ** Further vocabulary *)

(** The call rejects with [e] and leaves the store as it found it. *)
Definition rejects_with {A} (run : M A) (db : Db) (e : Exception) : Prop :=
  run db = (Err e, db).

(** The message of the not-found exception for a missing row. *)
Definition not_found_message (entity id : string) : string :=
  (entity ++ " with ID " ++ dquote ++ id ++ dquote ++ " not found")%string.

(** What [save] of a loaded entity [u] makes of a stored row [r], [u']
    being [u] with [updatedAt] advanced: the row under the key of [u] is
    replaced unless it is [u] itself. *)
Definition replace_row {A} (key : A -> string) (eqb : A -> A -> bool)
    (u u' r : A) : A :=
  if String.eqb (key r) (key u) then (if eqb r u then r else u') else r.

(** An entity with [updatedAt] advanced to [t], as an UPDATE leaves it. *)
Definition touch_user (t : Z) (u : User.t) : User.t :=
  User.mk (User.id u) (User.email u) (User.firstName u) (User.lastName u)
    (User.password u) (User.role u) (User.createdAt u) t.

Definition touch_post (t : Z) (p : Post.t) : Post.t :=
  Post.mk (Post.id p) (Post.title p) (Post.content p) (Post.published p)
    (Post.authorId p) (Post.createdAt p) t.

(** No stored user, respectively post, has the id [i]. *)
Definition no_user (i : string) (db : Db) : Prop :=
  forall u, In u (users db) -> User.id u <> i.

Definition no_post (i : string) (db : Db) : Prop :=
  forall p, In p (posts db) -> Post.id p <> i.

(** The update input as [update] hands it to [Object.assign]: a password
    that is present and not empty has been replaced by its hash. *)
Definition rehash {hasher : Bcrypt} (env : Env) (i : UpdateUserInput.t)
  : UpdateUserInput.t :=
  match UpdateUserInput.password i with
  | Some password =>
      if negb (String.eqb password "")
      then UpdateUserInput.mk (UpdateUserInput.email i)
             (UpdateUserInput.firstName i) (UpdateUserInput.lastName i)
             (Some (bcrypt_hash password 10 (salt env)))
             (UpdateUserInput.role i)
      else i
  | None => i
  end.

(** The input asks for an email that is not empty, differs from the one
    [user] has, and is held by a stored user. *)
Definition email_conflict (user : User.t) (i : UpdateUserInput.t) (db : Db)
  : bool :=
  match UpdateUserInput.email i with
  | Some email =>
      negb (String.eqb email "") && negb (String.eqb email (User.email user))
      && is_some (find (UserRepository.matches
                          (UserRepository.mkWhere None (Some email)))
                    (users db))
  | None => false
  end.

(** The uuid the store would generate is the id of no stored row. *)
Definition fresh_uuid (env : Env) (db : Db) : Prop :=
  no_user (uuid env) db /\ no_post (uuid env) db.

(** An update of a user, if the operation is one, does not ask for the
    empty email (which [@IsEmail] refuses at the boundary). *)
Definition email_given (op : Operation) : Prop :=
  match op with
  | UsersUpdate _ i _ => UpdateUserInput.email i <> Some ""%string
  | _ => True
  end.

(** The inline ownership test of the four post mutations. *)
Definition denied (post : Post.t) (currentUser : User.t) : bool :=
  negb (UserRole_eqb (User.role currentUser) ADMIN)
  && negb (String.eqb (Post.authorId post) (User.id currentUser)).

(** The operations that only look things up. *)
Definition is_read (op : Operation) : bool :=
  match op with
  | UsersFindAll _ | UsersFindOne _ | UsersFindByEmail _
  | PostsFindAll _ _ | PostsFindOne _ | PostsFindByUser _ _
  | AuthLogin _ | AuthRefreshToken _ | AuthValidateUser _ => true
  | _ => false
  end.

(** The envelope the three listings build around the matching rows, in
    the order of the query. *)
Definition page_of {A} (rows : list A) (pg : PaginationInput.t)
  : Paginated.t A :=
  let page := or_else (PaginationInput.page pg) 1 in
  let limit := or_else (PaginationInput.limit pg) 10 in
  Paginated.mk (offset_limit ((page - 1) * limit) limit rows)
    (Z.of_nat (List.length rows)) page limit
    (Math_ceil_div (Z.of_nat (List.length rows)) limit)
    (page <? Math_ceil_div (Z.of_nat (List.length rows)) limit)
    (1 <? page).

(** A page holds exactly the rows that are left for it, says that a next
    page exists exactly when rows are left after it, and is empty when it
    lies behind the last page. *)
Definition page_exact {A} (r : Paginated.t A) : Prop :=
  Z.of_nat (List.length (Paginated.items r))
  = Z.min (Paginated.limit r)
      (Z.max 0 (Paginated.total r
                - (Paginated.page r - 1) * Paginated.limit r))
  /\ Paginated.hasNextPage r
     = (Paginated.page r * Paginated.limit r <? Paginated.total r)
  /\ (Paginated.totalPages r < Paginated.page r -> Paginated.items r = []).

(** Times that never increase along the list. *)
Fixpoint descending (ts : list Z) : Prop :=
  match ts with
  | [] => True
  | t :: ts' => (forall s, In s ts' -> s <= t) /\ descending ts'
  end.

(** The pagination input for the page after the one [pg] asks for. *)
Definition next_page (pg : PaginationInput.t) : PaginationInput.t :=
  PaginationInput.mk (Some (or_else (PaginationInput.page pg) 1 + 1))
    (PaginationInput.limit pg).

(** * Properties *)

(** ** Lists, arithmetic and patterns *)

Section OrderByFacts.
Context {A : Type} (key : A -> Z).

Lemma insert_desc_perm (x : A) (l : list A) :
  Permutation (insert_desc key x l) (x :: l).
Proof.
  induction l as [|y l IH]; simpl.
  - apply Permutation_refl.
  - destruct (key y <=? key x).
    + apply Permutation_refl.
    + eapply perm_trans; [apply perm_skip, IH | apply perm_swap].
Qed.

Lemma order_desc_perm (l : list A) : Permutation (order_desc key l) l.
Proof.
  induction l as [|x l IH]; simpl.
  - apply perm_nil.
  - eapply perm_trans; [apply insert_desc_perm | apply perm_skip, IH].
Qed.

Lemma order_desc_length (l : list A) :
  List.length (order_desc key l) = List.length l.
Proof. apply Permutation_length, order_desc_perm. Qed.

Lemma order_desc_In (x : A) (l : list A) :
  In x (order_desc key l) <-> In x l.
Proof.
  split; apply Permutation_in;
    [apply order_desc_perm | apply Permutation_sym, order_desc_perm].
Qed.
End OrderByFacts.

Lemma offset_limit_length {A} (skip take : Z) (l : list A) :
  0 <= take -> Z.of_nat (List.length (offset_limit skip take l)) <= take.
Proof.
  intros Htake. unfold offset_limit.
  pose proof (firstn_le_length (Z.to_nat take) (skipn (Z.to_nat skip) l)).
  lia.
Qed.

Lemma In_firstn {A} (n : nat) (l : list A) (x : A) :
  In x (firstn n l) -> In x l.
Proof.
  revert l. induction n as [|n IH]; intros [|y l]; simpl; auto.
  - contradiction.
  - intros [H|H]; auto.
Qed.

Lemma In_skipn {A} (n : nat) (l : list A) (x : A) :
  In x (skipn n l) -> In x l.
Proof.
  revert l. induction n as [|n IH]; intros [|y l]; simpl; auto.
Qed.

Lemma offset_limit_In {A} (skip take : Z) (l : list A) (x : A) :
  In x (offset_limit skip take l) -> In x l.
Proof.
  unfold offset_limit. intros H.
  eapply In_skipn, In_firstn, H.
Qed.

Lemma offset_limit_whole {A} (take : Z) (l : list A) :
  Z.of_nat (List.length l) <= take -> offset_limit 0 take l = l.
Proof.
  intros H. unfold offset_limit. simpl.
  apply firstn_all2. lia.
Qed.

Lemma filter_filter {A} (f g : A -> bool) (l : list A) :
  filter f (filter g l) = filter (fun x => g x && f x) l.
Proof.
  induction l as [|x l IH]; simpl; [reflexivity|].
  destruct (g x); simpl; [destruct (f x)|]; now rewrite IH.
Qed.

(** The ceiling of [a / b] is the least [n] with [a <= n * b]. *)
Lemma Math_ceil_div_least (a b : Z) :
  0 < b -> (Math_ceil_div a b - 1) * b < a <= Math_ceil_div a b * b.
Proof.
  intros Hb. unfold Math_ceil_div.
  pose proof (Z.div_mod a b ltac:(lia)) as Hdm.
  pose proof (Z.mod_pos_bound a b Hb) as Hmod.
  destruct (Z.eqb_spec (a mod b) 0) as [Hz|Hz]; nia.
Qed.

Lemma UserRole_eqb_eq (a b : UserRole) : UserRole_eqb a b = true <-> a = b.
Proof. destruct a, b; simpl; split; congruence. Qed.

Lemma prefix_app (s t : string) :
  String.prefix s t = true <-> exists r, t = (s ++ r)%string.
Proof.
  revert t. induction s as [|c s IH]; intros t; simpl.
  - destruct t; split; eauto.
  - destruct t as [|d t]; simpl.
    + split; [discriminate | intros [r Hr]; discriminate].
    + destruct (ascii_dec c d) as [->|Hne].
      * rewrite IH. split; intros [r Hr]; exists r; simpl in *; congruence.
      * split; [discriminate | intros [r Hr]; simpl in Hr; congruence].
Qed.

(** [contains] is the substring relation. *)
Lemma contains_app (s t : string) :
  contains s t = true <-> exists l r, t = (l ++ s ++ r)%string.
Proof.
  induction t as [|d t IH]; cbn [contains]; rewrite orb_true_iff, prefix_app.
  - split.
    + intros [[r Hr]|H]; [exists EmptyString, r; exact Hr | discriminate].
    + intros [[|c l] [r Hr]]; [left; exists r; exact Hr | discriminate].
  - rewrite IH. split.
    + intros [[r Hr]|[l [r Hr]]].
      * exists EmptyString, r. exact Hr.
      * exists (String d l), r. simpl. now rewrite Hr.
    + intros [[|c l] [r Hr]].
      * left. exists r. exact Hr.
      * right. exists l, r. simpl in Hr. congruence.
Qed.

Lemma like_percent (pattern s : string) :
  like (String "%" pattern) s = like_from pattern s.
Proof. induction s as [|d s IH]; simpl in *; [reflexivity | now rewrite IH]. Qed.

Lemma like_literal_prefix (s t : string) :
  like_literal s = true -> like (s ++ "%") t = String.prefix s t.
Proof.
  revert t. induction s as [|c s IH]; intros t Hlit.
  - change (like (String "%" EmptyString) t = String.prefix EmptyString t).
    rewrite like_percent.
    replace (String.prefix EmptyString t) with true by now destruct t.
    induction t as [|d t IHt]; simpl; [reflexivity | exact IHt].
  - simpl in Hlit.
    apply andb_true_iff in Hlit as [Hlit Hs].
    apply andb_true_iff in Hlit as [Hlit H3].
    apply andb_true_iff in Hlit as [H1 H2].
    apply negb_true_iff in H1, H2, H3.
    simpl. rewrite H1, H2, H3.
    destruct t as [|d t]; [reflexivity|].
    rewrite (IH t Hs). cbn [String.prefix].
    destruct (ascii_dec c d) as [->|Hne].
    + now rewrite Ascii.eqb_refl.
    + apply Ascii.eqb_neq in Hne. now rewrite Hne.
Qed.

(** On a search term without wildcards the pattern [%term%] is the
    substring test. *)
Lemma like_literal_contains (s t : string) :
  like_literal s = true -> like ("%" ++ s ++ "%") t = contains s t.
Proof.
  intros Hlit.
  change (like (String "%" (s ++ "%")) t = contains s t).
  rewrite like_percent.
  induction t as [|d t IH]; simpl; rewrite like_literal_prefix by exact Hlit.
  - reflexivity.
  - now rewrite IH.
Qed.

(** ** Pagination *)

Lemma envelope_of_slice {A} (rows : list A) (page limit : Z) :
  1 <= limit ->
  envelope_ok
    (Paginated.mk (offset_limit ((page - 1) * limit) limit rows)
       (Z.of_nat (List.length rows)) page limit
       (Math_ceil_div (Z.of_nat (List.length rows)) limit)
       (page <? Math_ceil_div (Z.of_nat (List.length rows)) limit)
       (1 <? page)).
Proof.
  intros Hlimit. unfold envelope_ok. simpl.
  split; [apply Math_ceil_div_least; lia|].
  repeat split. apply offset_limit_length. lia.
Qed.

(** C3. A paginated listing of users or of posts, asked for page [p >= 1]
    with limit [L >= 1] over [T] matching rows, answers with
    [totalPages = ceil(T / L)], [hasNextPage = (p < totalPages)],
    [hasPreviousPage = (p > 1)] and at most [L] items. *)
Theorem pagination_envelope (pg : PaginationInput.t)
    (f : option PostFilterInput.t) (userId : string) (db : Db) :
  1 <= or_else (PaginationInput.limit pg) 10 ->
  1 <= or_else (PaginationInput.page pg) 1 ->
  paginates pg (Z.of_nat (List.length (users db))) db
    (UsersService.findAll pg)
  /\ paginates pg
       (Z.of_nat (List.length
          (filter (PostRepository.matches (PostsService.where_of f))
             (posts db))))
       db (PostsService.findAll pg f)
  /\ paginates pg
       (Z.of_nat (List.length
          (filter (fun p => String.eqb (Post.authorId p) userId) (posts db))))
       db (PostsService.findByUser userId pg).
Proof.
  intros Hlimit Hpage.
  unfold paginates, UsersService.findAll, PostsService.findAll,
    PostsService.findByUser, UserRepository.findAndCount,
    PostRepository.findAndCount, bind, ret.
  replace (filter (PostRepository.matches
                     (PostRepository.mkWhere None None (Some userId) None))
             (posts db))
    with (filter (fun p => String.eqb (Post.authorId p) userId) (posts db)).
  - split; [|split]; eexists; (split; [reflexivity|]); cbn [fst snd];
      (split; [cbn [Paginated.total]; now rewrite order_desc_length|]);
      (split; [reflexivity|]); (split; [reflexivity|]);
      now apply envelope_of_slice.
  - apply filter_ext. intros p.
    unfold PostRepository.matches. simpl. now rewrite andb_true_r.
Qed.

Lemma pagination_envelope_witness :
  paginates (PaginationInput.mk (Some 2) (Some 2)) 3 Sample.db
    (UsersService.findAll (PaginationInput.mk (Some 2) (Some 2)))
  /\ paginates (PaginationInput.mk (Some 2) (Some 2)) 3 Sample.db
       (PostsService.findAll (PaginationInput.mk (Some 2) (Some 2)) None)
  /\ paginates (PaginationInput.mk (Some 2) (Some 2)) 2 Sample.db
       (PostsService.findByUser "1" (PaginationInput.mk (Some 2) (Some 2))).
Proof.
  apply (pagination_envelope (PaginationInput.mk (Some 2) (Some 2)) None "1"
           Sample.db); simpl; lia.
Defined.

(** ** Filters of the post listing *)

Lemma matches_where_of (f : option PostFilterInput.t) (p : Post.t) :
  literal_search f = true ->
  PostRepository.matches (PostsService.where_of f) p = filter_as_built f p.
Proof.
  destruct f as [[s b a]|]; [|reflexivity].
  unfold PostRepository.matches, filter_as_built, literal_search. simpl.
  intros Hlit. f_equal; [f_equal|].
  - now destruct b.
  - destruct a as [a|]; [|reflexivity]. simpl.
    destruct (String.eqb a ""); reflexivity.
  - destruct s as [s|]; [|reflexivity].
    destruct (String.eqb_spec s "") as [->|Hne]; simpl.
    + now destruct (Post.title p).
    + now apply like_literal_contains.
Qed.

(** C4 (amended). Listing posts selects exactly the posts that satisfy
    the conjunction of: [published] equal to the given flag when present,
    [authorId] equal to the given id when present and not empty, and the
    title containing the given [searchTerm] as a case-sensitive substring
    when present, for a search term without the wildcards of [LIKE]; no
    filter, or a filter without fields, selects every post.  The answer
    is the requested page of the selection, newest first, with its size
    as [total]. *)
Theorem filter_composition (pg : PaginationInput.t)
    (f : option PostFilterInput.t) (db : Db) :
  literal_search f = true ->
  exists r,
    PostsService.findAll pg f db = (Ok r, db)
    /\ Paginated.total r
       = Z.of_nat (List.length (filter (filter_as_built f) (posts db)))
    /\ Paginated.items r
       = offset_limit ((Paginated.page r - 1) * Paginated.limit r)
           (Paginated.limit r)
           (order_desc Post.createdAt (filter (filter_as_built f) (posts db)))
    /\ (forall p, In p (Paginated.items r) ->
                  In p (posts db) /\ filter_as_built f p = true)
    /\ (Paginated.page r = 1 -> Paginated.total r <= Paginated.limit r ->
        forall p, In p (posts db) -> filter_as_built f p = true ->
                  In p (Paginated.items r)).
Proof.
  intros Hlit.
  unfold PostsService.findAll, PostRepository.findAndCount, bind, ret.
  rewrite (filter_ext _ _ (fun p => matches_where_of f p Hlit)).
  eexists. split; [reflexivity|]. cbn [fst snd].
  set (rows := filter (filter_as_built f) (posts db)).
  cbn [Paginated.total Paginated.items Paginated.page Paginated.limit].
  split; [now rewrite order_desc_length|].
  split; [reflexivity|].
  split.
  - intros p Hin. apply offset_limit_In, order_desc_In in Hin.
    now apply filter_In in Hin.
  - intros -> Hfit p Hin Hp. simpl.
    rewrite offset_limit_whole by exact Hfit.
    apply order_desc_In, filter_In. now split.
Qed.

Lemma filter_composition_witness :
  exists r,
    PostsService.findAll (PaginationInput.mk None None)
      (Some (PostFilterInput.mk (Some "GraphQL") (Some true) None)) Sample.db
    = (Ok r, Sample.db)
    /\ Paginated.total r = 1
    /\ Paginated.items r = [Sample.post2].
Proof.
  destruct (filter_composition (PaginationInput.mk None None)
              (Some (PostFilterInput.mk (Some "GraphQL") (Some true) None))
              Sample.db eq_refl)
    as [r [Hrun [Htotal [Hitems _]]]].
  exists r. split; [exact Hrun|]. split; [exact Htotal|].
  rewrite Hitems.
  replace (Paginated.page r) with 1
    by (injection Hrun as <-; reflexivity).
  replace (Paginated.limit r) with 10
    by (injection Hrun as <-; reflexivity).
  reflexivity.
Defined.

(** C4, as stated, fails: an [authorId] that is present but empty is not
    matched against the posts, and a search term is a [LIKE] pattern, in
    which [_] stands for any character. *)
Lemma filter_as_specified_counterexample :
  (map Post.id
     (listed (PostsService.findAll (PaginationInput.mk None None)
                (Some (PostFilterInput.mk None None (Some ""))) Sample.db))
   = ["p3"; "p2"; "p1"]
   /\ filter (filter_as_specified
                (Some (PostFilterInput.mk None None (Some ""))))
        (posts Sample.db) = [])
  /\ (map Post.id
        (listed (PostsService.findAll (PaginationInput.mk None None)
                   (Some (PostFilterInput.mk (Some "_") None None)) Sample.db))
      = ["p3"; "p2"; "p1"]
      /\ filter (filter_as_specified
                   (Some (PostFilterInput.mk (Some "_") None None)))
           (posts Sample.db) = []).
Proof. repeat split; vm_compute; reflexivity. Qed.

(** C10. In the post listing an empty [authorId] and an empty
    [searchTerm] are as good as absent, while [published = false] does
    constrain the listing: it lists what the same filter without
    [published] lists over the unpublished posts alone. *)
Theorem truthy_filter_fields (pg : PaginationInput.t)
    (s : option string) (b : option bool) (a : option string) (db : Db) :
  PostsService.findAll pg (Some (PostFilterInput.mk s b (Some ""))) db
  = PostsService.findAll pg (Some (PostFilterInput.mk s b None)) db
  /\ PostsService.findAll pg (Some (PostFilterInput.mk (Some "") b a)) db
     = PostsService.findAll pg (Some (PostFilterInput.mk None b a)) db
  /\ fst (PostsService.findAll pg
            (Some (PostFilterInput.mk s (Some false) a)) db)
     = fst (PostsService.findAll pg (Some (PostFilterInput.mk s None a))
              (mkDb (users db)
                 (filter (fun p => negb (Post.published p)) (posts db))))
  /\ (forall p,
        In p (listed (PostsService.findAll pg
                        (Some (PostFilterInput.mk s (Some false) a)) db)) ->
        Post.published p = false).
Proof.
  split; [reflexivity|]. split; [reflexivity|].
  assert (Hrows :
    filter (PostRepository.matches
              (PostsService.where_of
                 (Some (PostFilterInput.mk s (Some false) a)))) (posts db)
    = filter (PostRepository.matches
                (PostsService.where_of (Some (PostFilterInput.mk s None a))))
        (filter (fun p => negb (Post.published p)) (posts db))).
  { rewrite filter_filter. apply filter_ext. intros p.
    unfold PostRepository.matches. simpl.
    destruct (Post.published p); reflexivity. }
  split.
  - unfold PostsService.findAll, PostRepository.findAndCount, bind, ret.
    cbn [fst posts]. now rewrite Hrows.
  - intros p.
    unfold listed, PostsService.findAll, PostRepository.findAndCount, bind, ret.
    cbn [fst Paginated.items]. intros Hin.
    apply offset_limit_In, order_desc_In, filter_In in Hin.
    destruct Hin as [_ Hm]. unfold PostRepository.matches in Hm. simpl in Hm.
    destruct (Post.published p); [discriminate | reflexivity].
Qed.

(** ** Lookups *)

Lemma find_by_unique {A} (key : A -> string) (f : A -> bool)
    (l : list A) (x : A) :
  (forall y, f y = String.eqb (key y) (key x)) ->
  NoDup (map key l) -> In x l -> find f l = Some x.
Proof.
  intros Hf. induction l as [|y l IH]; simpl; intros Hnd Hin; [contradiction|].
  inversion Hnd as [|k ks Hnotin Hnd']; subst.
  destruct Hin as [->|Hin].
  - now rewrite Hf, String.eqb_refl.
  - rewrite Hf. destruct (String.eqb_spec (key y) (key x)) as [Heq|_].
    + exfalso. apply Hnotin. rewrite Heq. now apply in_map.
    + now apply IH.
Qed.

Lemma find_present {A} (f : A -> bool) (l : list A) (x : A) :
  In x l -> f x = true -> exists y, find f l = Some y /\ f y = true.
Proof.
  intros Hin Hfx. destruct (find f l) as [y|] eqn:Hfind.
  - exists y. split; [reflexivity|]. now apply find_some in Hfind.
  - rewrite (find_none _ _ Hfind x Hin) in Hfx. discriminate.
Qed.

Lemma find_absent {A} (f : A -> bool) (l : list A) :
  (forall x, In x l -> f x = false) -> find f l = None.
Proof.
  intros Hall. destruct (find f l) as [y|] eqn:Hfind; [|reflexivity].
  apply find_some in Hfind as [Hin Hfy]. rewrite (Hall y Hin) in Hfy.
  discriminate.
Qed.

Lemma users_find_email (e : string) (db : Db) :
  email_taken e db ->
  exists u, find (UserRepository.matches (UserRepository.mkWhere None (Some e)))
              (users db) = Some u.
Proof.
  intros [u [Hin He]].
  destruct (find_present
              (UserRepository.matches (UserRepository.mkWhere None (Some e)))
              (users db) u Hin) as [y [Hy _]].
  - unfold UserRepository.matches. simpl. rewrite He. apply String.eqb_refl.
  - now exists y.
Qed.

Lemma users_find_email_none (e : string) (db : Db) :
  ~ email_taken e db ->
  find (UserRepository.matches (UserRepository.mkWhere None (Some e)))
    (users db) = None.
Proof.
  intros Hfree. apply find_absent. intros u Hin.
  unfold UserRepository.matches. simpl.
  destruct (String.eqb_spec (User.email u) e) as [He|_]; [|reflexivity].
  exfalso. apply Hfree. now exists u.
Qed.

Lemma users_find_email_unique (u : User.t) (db : Db) :
  NoDup (map User.email (users db)) -> In u (users db) ->
  find (UserRepository.matches
          (UserRepository.mkWhere None (Some (User.email u))))
    (users db) = Some u.
Proof.
  apply find_by_unique. intros y. reflexivity.
Qed.

Lemma posts_findOne_key (P : Post.t) (db : Db) :
  NoDup (map Post.id (posts db)) -> In P (posts db) ->
  PostsService.findOne (Post.id P) db = (Ok P, db).
Proof.
  intros Hnd Hin.
  unfold PostsService.findOne, PostRepository.findOne, bind.
  rewrite (find_by_unique Post.id _ (posts db) P); [reflexivity| |assumption..].
  intros y. unfold PostRepository.matches. simpl.
  now rewrite !andb_true_r.
Qed.

Lemma users_findOne_present (target : User.t) (db : Db) :
  In target (users db) ->
  exists user, UsersService.findOne (User.id target) db = (Ok user, db)
               /\ User.id user = User.id target.
Proof.
  intros Hin.
  destruct (find_present
              (UserRepository.matches
                 (UserRepository.mkWhere (Some (User.id target)) None))
              (users db) target Hin) as [user [Hfind Hm]].
  - unfold UserRepository.matches. simpl. now rewrite String.eqb_refl.
  - exists user. unfold UsersService.findOne, UserRepository.findOne, bind.
    rewrite Hfind. split; [reflexivity|].
    unfold UserRepository.matches in Hm. simpl in Hm.
    rewrite andb_true_r in Hm. now apply String.eqb_eq.
Qed.

Lemma canModify_iff (P : Post.t) (U : User.t) :
  canModify P U = true
  <-> (User.role U = ADMIN \/ Post.authorId P = User.id U).
Proof.
  unfold canModify.
  now rewrite orb_true_iff, UserRole_eqb_eq, String.eqb_eq.
Qed.

(** The inline check of the four mutations is the negation of
    [canModify]. *)
Lemma denied_canModify (P : Post.t) (U : User.t) :
  negb (UserRole_eqb (User.role U) ADMIN)
  && negb (String.eqb (Post.authorId P) (User.id U))
  = negb (canModify P U).
Proof. unfold canModify. now rewrite negb_orb. Qed.

Lemma gated_intro {A} (P : Post.t) (U : User.t) (db : Db) (run : M A) :
  (canModify P U = true -> exists v db', run db = (Ok v, db')) ->
  (canModify P U = false ->
   exists message, run db = (Err (ForbiddenException message), db)) ->
  gated P U db run.
Proof.
  intros Hyes Hno. split.
  - rewrite <- canModify_iff. split; [|exact Hyes].
    intros [v [db' Hrun]].
    destruct (canModify P U) eqn:Hcan; [reflexivity|].
    destruct (Hno eq_refl) as [m Hm]. congruence.
  - intros Hrole Hauthor. apply Hno.
    destruct (canModify P U) eqn:Hcan; [|reflexivity].
    apply canModify_iff in Hcan. tauto.
Qed.

(** ** Ownership of posts *)

(** C1. On an existing post [P], each of [update], [remove],
    [publishPost] and [unpublishPost] by user [U] succeeds, when the store
    takes the write, exactly if [U] is an admin or the author of [P]; for
    anyone else it fails with [Forbidden] and the store is unchanged. *)
Theorem post_mutations_gated (P : Post.t) (U : User.t)
    (updatePostInput : UpdatePostInput.t) (env : Env) (db : Db) :
  NoDup (map Post.id (posts db)) ->
  In P (posts db) ->
  db_fault env = false ->
  gated P U db (PostsService.update (Post.id P) updatePostInput U env)
  /\ gated P U db (PostsService.remove (Post.id P) U env)
  /\ gated P U db (PostsService.publishPost (Post.id P) U env)
  /\ gated P U db (PostsService.unpublishPost (Post.id P) U env).
Proof.
  intros Hnd Hin Hfault.
  pose proof (posts_findOne_key P db Hnd Hin) as Hfound.
  repeat split; apply gated_intro; intros Hcan;
    unfold PostsService.update, PostsService.remove,
      PostsService.publishPost, PostsService.unpublishPost;
    unfold bind at 1; rewrite Hfound;
    unfold bind, throw_if, try_catch, throw, ret,
      PostRepository.save, PostRepository.remove;
    rewrite denied_canModify, Hcan, ?Hfault; simpl; eauto.
Qed.

Lemma post_mutations_gated_witness :
  gated Sample.post3 Sample.jane Sample.db
    (PostsService.update "p3" (UpdatePostInput.mk (Some "Taken") None None)
       Sample.jane Sample.env)
  /\ gated Sample.post3 Sample.jane Sample.db
       (PostsService.remove "p3" Sample.jane Sample.env)
  /\ gated Sample.post3 Sample.jane Sample.db
       (PostsService.publishPost "p3" Sample.jane Sample.env)
  /\ gated Sample.post3 Sample.jane Sample.db
       (PostsService.unpublishPost "p3" Sample.jane Sample.env).
Proof.
  apply (post_mutations_gated Sample.post3 Sample.jane
           (UpdatePostInput.mk (Some "Taken") None None) Sample.env Sample.db).
  - repeat (constructor; [simpl; intuition discriminate|]). constructor.
  - simpl. auto.
  - reflexivity.
Defined.

(** ** Removal of accounts *)

(** C2 (amended). On an existing account, [remove] by a user who is not an
    admin fails with [Forbidden], whether the account is the user's own
    or not; by an admin it passes the permission checks also when the
    account is the admin's own and, when the store takes the write,
    deletes the account.  So [remove] succeeds only for an admin. *)
Theorem user_removal_permission (target currentUser : User.t)
    (env : Env) (db : Db) :
  In target (users db) ->
  (User.role currentUser <> ADMIN ->
   exists message,
     UsersService.remove (User.id target) currentUser env db
     = (Err (ForbiddenException message), db))
  /\ (User.role currentUser = ADMIN -> db_fault env = false ->
      UsersService.remove (User.id target) currentUser env db
      = (Ok true,
         mkDb (filter (fun r => negb (String.eqb (User.id r) (User.id target)))
                 (users db))
              (posts db)))
  /\ (forall db',
        UsersService.remove (User.id target) currentUser env db = (Ok true, db') ->
        User.role currentUser = ADMIN).
Proof.
  intros Hin.
  destruct (users_findOne_present target db Hin) as [user [Hfound Hid]].
  unfold UsersService.remove, bind. rewrite Hfound.
  unfold throw_if, try_catch, throw, ret, UserRepository.remove.
  rewrite Hid.
  destruct (User.role currentUser); simpl.
  - split; [|split]; try congruence.
    + intros _.
      destruct (String.eqb (User.id currentUser) (User.id target)); simpl; eauto.
    + intros db'.
      destruct (String.eqb (User.id currentUser) (User.id target)); simpl;
        intros Heq; discriminate Heq.
  - rewrite andb_false_r. simpl.
    split; [congruence|]. split; [|reflexivity].
    intros _ ->. reflexivity.
Qed.

Lemma user_removal_permission_witness :
  (User.role Sample.admin <> ADMIN ->
   exists message,
     UsersService.remove "1" Sample.admin Sample.env Sample.db
     = (Err (ForbiddenException message), Sample.db))
  /\ (User.role Sample.admin = ADMIN -> db_fault Sample.env = false ->
      UsersService.remove "1" Sample.admin Sample.env Sample.db
      = (Ok true, mkDb [Sample.admin; Sample.jane] (posts Sample.db)))
  /\ (forall db',
        UsersService.remove "1" Sample.admin Sample.env Sample.db
        = (Ok true, db') ->
        User.role Sample.admin = ADMIN).
Proof.
  apply (user_removal_permission Sample.john Sample.admin Sample.env Sample.db).
  simpl. auto.
Defined.

(** C2, as stated, fails: an admin who removes the admin's own account is
    not refused; the account is deleted. *)
Lemma admin_self_removal_counterexample :
  User.id Sample.admin = "2"
  /\ In Sample.admin (users Sample.db)
  /\ UsersService.remove "2" Sample.admin Sample.env Sample.db
     = (Ok true, mkDb [Sample.john; Sample.jane] (posts Sample.db)).
Proof. repeat split. simpl. auto. Qed.

(** ** Unique emails *)

(** C5. Creating a user, through the identity service or through
    registration, with an email some stored user already has fails with
    [Conflict] (the specification's AlreadyExists) and writes nothing. *)
Theorem duplicate_email_rejected {hasher : Bcrypt} {signer : JwtService}
    (createUserInput : CreateUserInput.t) (registerInput : RegisterInput.t)
    (env : Env) (db : Db) :
  email_taken (CreateUserInput.email createUserInput) db ->
  email_taken (RegisterInput.email registerInput) db ->
  UsersService.create createUserInput env db
  = (Err (ConflictException "Email already registered"), db)
  /\ AuthService.register registerInput env db
     = (Err (ConflictException "Email already registered"), db).
Proof.
  intros Hc Hr.
  apply users_find_email in Hc as [u Hu].
  apply users_find_email in Hr as [v Hv].
  unfold UsersService.create, AuthService.register, UserRepository.findOne,
    bind, throw_if, throw.
  now rewrite Hu, Hv.
Qed.

Lemma duplicate_email_rejected_witness :
  UsersService.create
    (hasher := Sample.bcrypt)
    (CreateUserInput.mk "john@example.com" "Johnny" "Doe" "secret1" None)
    Sample.env Sample.db
  = (Err (ConflictException "Email already registered"), Sample.db)
  /\ AuthService.register
       (hasher := Sample.bcrypt) (signer := Sample.jwt)
       (RegisterInput.mk "jane@example.com" "secret2" "Jane" "Roe" (Some ADMIN))
       Sample.env Sample.db
     = (Err (ConflictException "Email already registered"), Sample.db).
Proof.
  apply (duplicate_email_rejected (hasher := Sample.bcrypt) (signer := Sample.jwt)).
  - exists Sample.john. simpl. auto.
  - exists Sample.jane. simpl. auto.
Defined.

(** ** Credentials *)

(** C6. [login] fails with [Unauthorized] when no stored user has the
    email and when the password does not match the stored hash of the
    user who has it, with the same exception and message in both cases;
    with a matching password it answers with the user and two tokens that
    sign the claim set of the user's id, email and role. *)
Theorem login_credentials {hasher : Bcrypt} {signer : JwtService}
    (loginInput : LoginInput.t) (env : Env) (db : Db) :
  NoDup (map User.email (users db)) ->
  (~ email_taken (LoginInput.email loginInput) db ->
   AuthService.login loginInput env db
   = (Err (UnauthorizedException "Invalid credentials"), db))
  /\ (forall user,
        In user (users db) ->
        User.email user = LoginInput.email loginInput ->
        bcrypt_compare (LoginInput.password loginInput) (User.password user)
        = false ->
        AuthService.login loginInput env db
        = (Err (UnauthorizedException "Invalid credentials"), db))
  /\ (forall user,
        In user (users db) ->
        User.email user = LoginInput.email loginInput ->
        bcrypt_compare (LoginInput.password loginInput) (User.password user)
        = true ->
        let payload :=
          mkJwtPayload (User.id user) (User.email user) (User.role user) in
        AuthService.login loginInput env db
        = (Ok (AuthResponse.mk
                 (jwt_sign payload None (now env))
                 (jwt_sign payload (Some "7d") (now env))
                 user),
           db)).
Proof.
  intros Hnd.
  unfold AuthService.login, AuthService.comparePasswords,
    AuthService.generateTokens, UserRepository.findOne,
    bind, throw_if, throw, ret.
  split; [|split].
  - intros Hfree. now rewrite (users_find_email_none _ _ Hfree).
  - intros user Hin <- Hcmp.
    rewrite (users_find_email_unique user db Hnd Hin). now rewrite Hcmp.
  - intros user Hin <- Hcmp. cbv zeta.
    rewrite (users_find_email_unique user db Hnd Hin). now rewrite Hcmp.
Qed.

Lemma login_credentials_witness :
  AuthService.login (hasher := Sample.bcrypt) (signer := Sample.jwt)
    (LoginInput.mk "john@example.com" "password123") Sample.env Sample.db
  = (Ok (AuthResponse.mk "1.1d" "1.7d" Sample.john), Sample.db)
  /\ AuthService.login (hasher := Sample.bcrypt) (signer := Sample.jwt)
       (LoginInput.mk "john@example.com" "password") Sample.env Sample.db
     = (Err (UnauthorizedException "Invalid credentials"), Sample.db).
Proof.
  assert (Hnd : NoDup (map User.email (users Sample.db))).
  { repeat (constructor; [simpl; intuition discriminate|]). constructor. }
  split.
  - destruct (login_credentials (hasher := Sample.bcrypt) (signer := Sample.jwt)
                (LoginInput.mk "john@example.com" "password123")
                Sample.env Sample.db Hnd) as [_ [_ Hok]].
    apply (Hok Sample.john); [simpl; auto | reflexivity | reflexivity].
  - destruct (login_credentials (hasher := Sample.bcrypt) (signer := Sample.jwt)
                (LoginInput.mk "john@example.com" "password")
                Sample.env Sample.db Hnd) as [_ [Hbad _]].
    apply (Hbad Sample.john); [simpl; auto | reflexivity | reflexivity].
Defined.

(** ** Creation of posts and of accounts *)

(** C8. A post created by [author] carries [author]'s id as [authorId],
    whatever the input (which has no author field), and is unpublished
    when the input leaves [published] out. *)
Theorem post_creation (createPostInput : CreatePostInput.t) (author : User.t)
    (env : Env) (db : Db) :
  db_fault env = false ->
  exists post,
    PostsService.create createPostInput author env db
    = (Ok post, mkDb (users db) (posts db ++ [post]))
    /\ Post.authorId post = User.id author
    /\ (CreatePostInput.published createPostInput = None ->
        Post.published post = false).
Proof.
  intros Hfault.
  unfold PostsService.create, PostRepository.insert, try_catch.
  rewrite Hfault. eexists. split; [reflexivity|]. simpl.
  split; [reflexivity|]. now intros ->.
Qed.

Lemma post_creation_witness :
  exists post,
    PostsService.create (CreatePostInput.mk "Hello" "First post" None)
      Sample.jane Sample.env Sample.db
    = (Ok post, mkDb (users Sample.db) (posts Sample.db ++ [post]))
    /\ Post.authorId post = "3"
    /\ (@None bool = None -> Post.published post = false).
Proof.
  apply (post_creation (CreatePostInput.mk "Hello" "First post" None)
           Sample.jane Sample.env Sample.db).
  reflexivity.
Defined.

(** C9. The public [register] mutation takes the role from its input: for
    an email not yet taken, and when the store takes the write, the user
    it creates and stores has the role of the input, [admin] included,
    and the role [user] only when the input has none. *)
Theorem register_role {hasher : Bcrypt} {signer : JwtService}
    (registerInput : RegisterInput.t) (env : Env) (db : Db) :
  ~ email_taken (RegisterInput.email registerInput) db ->
  db_fault env = false ->
  exists response,
    AuthResolver.register registerInput env db
    = (Ok response,
       mkDb (users db ++ [AuthResponse.user response]) (posts db))
    /\ User.email (AuthResponse.user response)
       = RegisterInput.email registerInput
    /\ User.role (AuthResponse.user response)
       = match RegisterInput.role registerInput with
         | Some role => role
         | None => USER
         end.
Proof.
  intros Hfree Hfault.
  unfold AuthResolver.register, AuthService.register,
    UserRepository.findOne, UserRepository.insert,
    bind, throw_if, try_catch, ret.
  rewrite (users_find_email_none _ _ Hfree), Hfault. simpl.
  match goal with
  | |- exists response, (Ok ?r, _) = _ /\ _ => exists r
  end.
  simpl. destruct (RegisterInput.role registerInput); repeat split.
Qed.

Lemma register_role_witness :
  exists response,
    AuthResolver.register (hasher := Sample.bcrypt) (signer := Sample.jwt)
      (RegisterInput.mk "eve@example.com" "secret1" "Eve" "Doe" (Some ADMIN))
      Sample.env Sample.db
    = (Ok response,
       mkDb (users Sample.db ++ [AuthResponse.user response])
         (posts Sample.db))
    /\ User.email (AuthResponse.user response) = "eve@example.com"
    /\ User.role (AuthResponse.user response) = ADMIN.
Proof.
  apply (register_role (hasher := Sample.bcrypt) (signer := Sample.jwt)
           (RegisterInput.mk "eve@example.com" "secret1" "Eve" "Doe"
              (Some ADMIN))
           Sample.env Sample.db).
  - intros [u [Hin He]]. simpl in Hin.
    repeat (destruct Hin as [<-|Hin]; [discriminate He|]). exact Hin.
  - reflexivity.
Defined.

(** ** Rejections write nothing *)

(** An operation that rejects with any exception leaves the store as it
    found it: every check comes before the one write, and a write the
    store refuses does not happen. *)
Lemma exec_error_keeps_store {hasher : Bcrypt} {signer : JwtService}
    (op : Operation) (env : Env) (db db' : Db) (e : Exception) :
  exec op env db = (Some e, db') -> db' = db.
Proof.
  destruct op; unfold exec, outcome;
    unfold UsersService.create, UsersService.findAll, UsersService.findOne,
      UsersService.findByEmail, UsersService.update, UsersService.remove,
      PostsService.create, PostsService.findAll, PostsService.findOne,
      PostsService.findByUser, PostsService.update, PostsService.remove,
      PostsService.publishPost, PostsService.unpublishPost,
      AuthService.register, AuthService.login, AuthService.refreshToken,
      AuthService.validateUser, AuthService.generateTokens,
      UsersService.findOne, PostsService.findOne,
      UserRepository.findOne, UserRepository.findAndCount,
      UserRepository.insert, UserRepository.save, UserRepository.remove,
      PostRepository.findOne, PostRepository.findAndCount,
      PostRepository.insert, PostRepository.save, PostRepository.remove,
      bind, throw_if, try_catch, throw, ret;
    cbn [fst snd];
    split_run;
    intros Heq; inversion Heq; reflexivity.
Qed.

(** C7. An operation that fails with [NotFound], [Forbidden] or
    [Conflict] (AlreadyExists) leaves the stored state exactly as it was
    before the operation. *)
Theorem rejection_writes_nothing {hasher : Bcrypt} {signer : JwtService}
    (op : Operation) (env : Env) (db db' : Db) (e : Exception) :
  exec op env db = (Some e, db') ->
  is_rejection e = true ->
  db' = db.
Proof.
  intros Hexec _. exact (exec_error_keeps_store op env db db' e Hexec).
Qed.

Lemma rejection_writes_nothing_witness :
  fst (exec (hasher := Sample.bcrypt) (signer := Sample.jwt)
         (UsersUpdate "1" (UpdateUserInput.mk (Some "jane@example.com") None
                             None (Some "secret9") None) Sample.john)
         Sample.env Sample.db)
  = Some (ConflictException "Email already registered")
  /\ snd (exec (hasher := Sample.bcrypt) (signer := Sample.jwt)
            (UsersUpdate "1" (UpdateUserInput.mk (Some "jane@example.com") None
                                None (Some "secret9") None) Sample.john)
            Sample.env Sample.db)
     = Sample.db.
Proof.
  split; [reflexivity|].
  apply (rejection_writes_nothing (hasher := Sample.bcrypt)
           (signer := Sample.jwt)
           (UsersUpdate "1" (UpdateUserInput.mk (Some "jane@example.com") None
                               None (Some "secret9") None) Sample.john)
           Sample.env Sample.db _
           (ConflictException "Email already registered"));
    reflexivity.
Defined.

(** * Further properties of the services *)

(** ** Rows and keys *)

Lemma Post_eqb_eq (a b : Post.t) : Post.eqb a b = true <-> a = b.
Proof.
  destruct a, b. unfold Post.eqb. simpl.
  rewrite !andb_true_iff, !String.eqb_eq, !Z.eqb_eq, Bool.eqb_true_iff.
  split; [intros [[[[[[-> ->] ->] ->] ->] ->] ->]; reflexivity|].
  intros [= -> -> -> -> -> -> ->]. repeat split.
Qed.

Lemma User_eqb_eq (a b : User.t) : User.eqb a b = true <-> a = b.
Proof.
  destruct a, b. unfold User.eqb. simpl.
  rewrite !andb_true_iff, !String.eqb_eq, !Z.eqb_eq, UserRole_eqb_eq.
  split; [intros [[[[[[[-> ->] ->] ->] ->] ->] ->] ->]; reflexivity|].
  intros [= -> -> -> -> -> -> -> ->]. repeat split.
Qed.

Lemma NoDup_map_eq {A B} (key : A -> B) (l : list A) (a b : A) :
  NoDup (map key l) -> In a l -> In b l -> key a = key b -> a = b.
Proof.
  induction l as [|x l IH]; simpl; intros Hnd Ha Hb Hk; [contradiction|].
  inversion Hnd as [|k ks Hnotin Hnd']; subst.
  destruct Ha as [->|Ha], Hb as [->|Hb]; auto.
  - exfalso. apply Hnotin. rewrite Hk. now apply in_map.
  - exfalso. apply Hnotin. rewrite <- Hk. now apply in_map.
Qed.

Lemma NoDup_map_filter {A B} (key : A -> B) (f : A -> bool) (l : list A) :
  NoDup (map key l) -> NoDup (map key (filter f l)).
Proof.
  induction l as [|x l IH]; simpl; intros Hnd; [constructor|].
  inversion Hnd as [|k ks Hnotin Hnd']; subst.
  destruct (f x); simpl; [constructor|]; auto.
  intros Hin. apply Hnotin.
  apply in_map_iff in Hin as [y [Hy Hin]].
  apply filter_In in Hin as [Hin _]. rewrite <- Hy. now apply in_map.
Qed.

Lemma find_map {A} (f : A -> bool) (g : A -> A) (l : list A) :
  (forall x, f (g x) = f x) ->
  find f (map g l) = option_map g (find f l).
Proof.
  intros Hfg. induction l as [|x l IH]; simpl; [reflexivity|].
  rewrite Hfg. destruct (f x); [reflexivity | exact IH].
Qed.

(** [save] on a table, for any entity type with a string key and a
    decidable equality. *)
Section SaveFacts.
Context {A : Type} (key : A -> string) (eqb : A -> A -> bool).
Hypothesis eqb_eq : forall a b, eqb a b = true <-> a = b.
Context (u u' : A) (l : list A).
Hypothesis key_u' : key u' = key u.

Lemma stored_key (r : A) : key (replace_row key eqb u u' r) = key r.
Proof.
  unfold replace_row.
  destruct (String.eqb_spec (key r) (key u)) as [Hk|_]; [|reflexivity].
  destruct (eqb r u); [reflexivity | congruence].
Qed.

Lemma stored_keys : map key (map (replace_row key eqb u u') l) = map key l.
Proof. rewrite map_map. apply map_ext. exact stored_key. Qed.

Lemma stored_other (r : A) :
  key r <> key u -> replace_row key eqb u u' r = r.
Proof.
  intros Hne. unfold replace_row.
  destruct (String.eqb_spec (key r) (key u)); [contradiction | reflexivity].
Qed.

(** The value [save] returns is the row it leaves under the key. *)
Lemma stored_loaded (x : A) :
  NoDup (map key l) -> In x l -> key x = key u ->
  replace_row key eqb u u' x
  = if existsb (fun r => eqb r u) l then u else u'.
Proof.
  intros Hnd Hin Hk. unfold replace_row.
  rewrite Hk, String.eqb_refl.
  destruct (eqb x u) eqn:Hxu.
  - apply eqb_eq in Hxu. subst x.
    replace (existsb (fun r => eqb r u) l) with true; [reflexivity|].
    symmetry. apply existsb_exists. exists u. split; [exact Hin|].
    now apply eqb_eq.
  - destruct (existsb (fun r => eqb r u) l) eqn:Hex; [|reflexivity].
    apply existsb_exists in Hex as [r [Hr Hru]].
    apply eqb_eq in Hru. subst r.
    rewrite (NoDup_map_eq key l x u Hnd Hin Hr Hk) in Hxu.
    assert (Huu : eqb u u = true) by now apply eqb_eq.
    congruence.
Qed.

Lemma stored_find (f : A -> bool) (x : A) :
  (forall a b, key a = key b -> f a = f b) ->
  find f l = Some x ->
  find f (map (replace_row key eqb u u') l)
  = Some (replace_row key eqb u u' x).
Proof.
  intros Hf Hfind. rewrite find_map, Hfind; [reflexivity|].
  intros r. apply Hf, stored_key.
Qed.
End SaveFacts.

Lemma user_save_ok (env : Env) (u : User.t) (db : Db) :
  db_fault env = false ->
  UserRepository.save env u db
  = (Ok (if existsb (fun r => User.eqb r u) (users db)
         then u else touch_user (now env) u),
     mkDb (map (replace_row User.id User.eqb u (touch_user (now env) u))
             (users db))
          (posts db)).
Proof. intros Hfault. unfold UserRepository.save. now rewrite Hfault. Qed.

Lemma post_save_ok (env : Env) (p : Post.t) (db : Db) :
  db_fault env = false ->
  PostRepository.save env p db
  = (Ok (if existsb (fun r => Post.eqb r p) (posts db)
         then p else touch_post (now env) p),
     mkDb (users db)
          (map (replace_row Post.id Post.eqb p (touch_post (now env) p))
             (posts db))).
Proof. intros Hfault. unfold PostRepository.save. now rewrite Hfault. Qed.

Lemma users_find_id_none (i : string) (db : Db) :
  no_user i db ->
  find (UserRepository.matches (UserRepository.mkWhere (Some i) None))
    (users db) = None.
Proof.
  intros Hno. apply find_absent. intros u Hin.
  unfold UserRepository.matches. simpl. rewrite andb_true_r.
  apply String.eqb_neq. now apply Hno.
Qed.

Lemma posts_find_id_none (i : string) (db : Db) :
  no_post i db ->
  find (PostRepository.matches (PostRepository.mkWhere (Some i) None None None))
    (posts db) = None.
Proof.
  intros Hno. apply find_absent. intros p Hin.
  unfold PostRepository.matches. simpl. rewrite !andb_true_r.
  apply String.eqb_neq. now apply Hno.
Qed.

Lemma users_find_id_unique (u : User.t) (db : Db) :
  NoDup (map User.id (users db)) -> In u (users db) ->
  find (UserRepository.matches (UserRepository.mkWhere (Some (User.id u)) None))
    (users db) = Some u.
Proof.
  apply find_by_unique. intros y.
  unfold UserRepository.matches. simpl. now rewrite andb_true_r.
Qed.

(** ** Missing rows *)





(** ** Updating an account *)

(** [update] on a user that is found, as a decision list. *)
Lemma update_found {hasher : Bcrypt} (i : string)
    (updateUserInput : UpdateUserInput.t) (currentUser user : User.t)
    (env : Env) (db : Db) :
  find (UserRepository.matches (UserRepository.mkWhere (Some i) None))
    (users db) = Some user ->
  UsersService.update i updateUserInput currentUser env db
  = if negb (UserRole_eqb (User.role currentUser) ADMIN)
       && negb (String.eqb (User.id currentUser) i)
    then (Err (ForbiddenException "You can only update your own profile"), db)
    else if email_conflict user updateUserInput db
    then (Err (ConflictException "Email already registered"), db)
    else if is_some (UpdateUserInput.role updateUserInput)
            && negb (UserRole_eqb (User.role currentUser) ADMIN)
    then (Err (ForbiddenException "Only admins can change user roles"), db)
    else try_catch
           (UserRepository.save env
              (UsersService.assign user (rehash env updateUserInput)))
           (InternalServerErrorException "Failed to update user") db.
Proof.
  intros Hfind.
  destruct updateUserInput as [[email|] firstName lastName password role];
    unfold UsersService.update, UsersService.findOne, UserRepository.findOne,
      bind, email_conflict, rehash;
    rewrite Hfind; unfold throw_if, throw, ret; cbn [UpdateUserInput.email
      UpdateUserInput.role UpdateUserInput.password];
    destruct (negb (UserRole_eqb (User.role currentUser) ADMIN)
              && negb (String.eqb (User.id currentUser) i));
    try reflexivity.
  - destruct (negb (String.eqb email "")
              && negb (String.eqb email (User.email user))); simpl.
    + destruct (find (UserRepository.matches
                        (UserRepository.mkWhere None (Some email)))
                  (users db)); simpl; [reflexivity|].
      destruct (is_some role
                && negb (UserRole_eqb (User.role currentUser) ADMIN));
        reflexivity.
    + destruct (is_some role
                && negb (UserRole_eqb (User.role currentUser) ADMIN));
        reflexivity.
  - destruct (is_some role
              && negb (UserRole_eqb (User.role currentUser) ADMIN));
      reflexivity.
Qed.

Lemma update_ok_found {hasher : Bcrypt} (i : string)
    (updateUserInput : UpdateUserInput.t) (currentUser u' : User.t)
    (env : Env) (db db' : Db) :
  UsersService.update i updateUserInput currentUser env db = (Ok u', db') ->
  exists user,
    find (UserRepository.matches (UserRepository.mkWhere (Some i) None))
      (users db) = Some user
    /\ In user (users db) /\ User.id user = i.
Proof.
  intros Hrun.
  destruct (find (UserRepository.matches (UserRepository.mkWhere (Some i) None))
              (users db)) as [user|] eqn:Hfind.
  - exists user. split; [reflexivity|].
    apply find_some in Hfind as [Hin Hm]. split; [exact Hin|].
    unfold UserRepository.matches in Hm. simpl in Hm.
    rewrite andb_true_r in Hm. now apply String.eqb_eq.
  - unfold UsersService.update, UsersService.findOne, UserRepository.findOne,
      bind in Hrun. rewrite Hfind in Hrun. discriminate Hrun.
Qed.

(** What a successful [update] returns and leaves in the store. *)
Lemma update_ok_inv {hasher : Bcrypt} (i : string)
    (updateUserInput : UpdateUserInput.t) (currentUser u' : User.t)
    (env : Env) (db db' : Db) :
  UsersService.update i updateUserInput currentUser env db = (Ok u', db') ->
  exists user,
    let u := UsersService.assign user (rehash env updateUserInput) in
    In user (users db) /\ User.id user = i
    /\ find (UserRepository.matches (UserRepository.mkWhere (Some i) None))
         (users db) = Some user
    /\ (User.role currentUser = ADMIN \/ User.id currentUser = i)
    /\ email_conflict user updateUserInput db = false
    /\ (User.role currentUser <> ADMIN ->
        UpdateUserInput.role updateUserInput = None)
    /\ u' = (if existsb (fun r => User.eqb r u) (users db)
             then u else touch_user (now env) u)
    /\ db' = mkDb (map (replace_row User.id User.eqb u (touch_user (now env) u))
                     (users db))
                  (posts db).
Proof.
  intros Hrun.
  destruct (update_ok_found _ _ _ _ _ _ _ Hrun) as [user [Hfind [Hin Hid]]].
  exists user. cbv zeta.
  rewrite (update_found _ _ _ _ _ _ Hfind) in Hrun.
  destruct (UserRole_eqb (User.role currentUser) ADMIN) eqn:Hadmin;
    destruct (String.eqb (User.id currentUser) i) eqn:Hself;
    simpl in Hrun; try discriminate Hrun;
    destruct (email_conflict user updateUserInput db); try discriminate Hrun;
    destruct (UpdateUserInput.role updateUserInput) as [r|] eqn:Hr;
    simpl in Hrun; try discriminate Hrun;
    unfold try_catch in Hrun;
    destruct (db_fault env) eqn:Hfault;
    try (unfold UserRepository.save in Hrun; rewrite Hfault in Hrun;
         discriminate Hrun);
    rewrite (user_save_ok _ _ _ Hfault) in Hrun;
    injection Hrun as <- <-;
    repeat split; auto;
    try (left; now apply UserRole_eqb_eq);
    try (right; now apply String.eqb_eq);
    try (intros Hne; exfalso; apply Hne; now apply UserRole_eqb_eq).
Qed.

Lemma rehash_fields {hasher : Bcrypt} (env : Env) (i : UpdateUserInput.t) :
  UpdateUserInput.email (rehash env i) = UpdateUserInput.email i
  /\ UpdateUserInput.firstName (rehash env i) = UpdateUserInput.firstName i
  /\ UpdateUserInput.lastName (rehash env i) = UpdateUserInput.lastName i
  /\ UpdateUserInput.role (rehash env i) = UpdateUserInput.role i
  /\ UpdateUserInput.password (rehash env i)
     = match UpdateUserInput.password i with
       | Some password =>
           Some (if String.eqb password "" then ""%string
                 else bcrypt_hash password 10 (salt env))
       | None => None
       end.
Proof.
  unfold rehash. destruct i as [e f l [p|] r]; simpl; [|repeat split].
  destruct (String.eqb_spec p "") as [->|_]; simpl; repeat split.
Qed.

Lemma user_matches_id (i : string) (a b : User.t) :
  User.id a = User.id b ->
  UserRepository.matches (UserRepository.mkWhere (Some i) None) a
  = UserRepository.matches (UserRepository.mkWhere (Some i) None) b.
Proof. intros H. unfold UserRepository.matches. simpl. now rewrite H. Qed.

(** X3. A user who is not an admin can update no account but their own,
    and no role at all: after a successful [update] by such a user the
    updated account is the user's own, every other account is stored as
    it was, the roles of all accounts are what they were, and the posts
    are untouched. *)
Theorem non_admin_update_keeps_roles {hasher : Bcrypt} (i : string)
    (updateUserInput : UpdateUserInput.t) (currentUser u' : User.t)
    (env : Env) (db db' : Db) :
  NoDup (map User.id (users db)) ->
  User.role currentUser <> ADMIN ->
  UsersService.update i updateUserInput currentUser env db = (Ok u', db') ->
  i = User.id currentUser
  /\ map User.role (users db') = map User.role (users db)
  /\ (forall r, In r (users db) -> User.id r <> User.id currentUser ->
                In r (users db'))
  /\ posts db' = posts db.
Proof.
  intros Hnd Hrole Hrun.
  destruct (update_ok_inv _ _ _ _ _ _ _ Hrun)
    as [user [Hin [Hid [_ [Hauth [_ [Hnorole [_ ->]]]]]]]].
  destruct Hauth as [Hadmin|Hself]; [contradiction|].
  specialize (Hnorole Hrole).
  set (u := UsersService.assign user (rehash env updateUserInput)).
  assert (Hu : User.id u = User.id user) by reflexivity.
  assert (Hur : User.role u = User.role user).
  { unfold u, UsersService.assign. simpl.
    destruct (rehash_fields env updateUserInput) as [_ [_ [_ [-> _]]]].
    now rewrite Hnorole. }
  split; [congruence|]. cbn [users posts]. split; [|split; [|reflexivity]].
  - rewrite map_map. apply map_ext_in. intros r Hr.
    unfold replace_row.
    destruct (String.eqb_spec (User.id r) (User.id u)) as [Hk|_];
      [|reflexivity].
    destruct (User.eqb r u); [reflexivity|].
    change (User.role u = User.role r).
    rewrite Hur. f_equal.
    apply (NoDup_map_eq User.id (users db)); congruence.
  - intros r Hr Hne. apply in_map_iff. exists r. split; [|exact Hr].
    apply stored_other. congruence.
Qed.

Lemma non_admin_update_keeps_roles_witness :
  "1"%string = User.id Sample.john
  /\ map User.role
       (users (snd (UsersService.update (hasher := Sample.bcrypt) "1"
                      (UpdateUserInput.mk None (Some "Johnny") None None None)
                      Sample.john Sample.env Sample.db)))
     = [ADMIN; USER; USER].
Proof.
  destruct (UsersService.update (hasher := Sample.bcrypt) "1"
              (UpdateUserInput.mk None (Some "Johnny") None None None)
              Sample.john Sample.env Sample.db) as [[u'|e] db'] eqn:Hrun;
    [|vm_compute in Hrun; discriminate Hrun].
  destruct (non_admin_update_keeps_roles (hasher := Sample.bcrypt) "1"
              (UpdateUserInput.mk None (Some "Johnny") None None None)
              Sample.john u' Sample.env Sample.db db')
    as [Hself [Hroles _]].
  - repeat (constructor; [simpl; intuition discriminate|]). constructor.
  - discriminate.
  - exact Hrun.
  - split; [exact Hself | exact Hroles].
Defined.

(** X4. An authorised [update] that asks for an email which is not empty,
    differs from the account's own and belongs to a stored user fails
    with [Conflict] and writes nothing; asking for the email the account
    already has is never a conflict. *)
Theorem update_email_conflict {hasher : Bcrypt} (target currentUser : User.t)
    (updateUserInput : UpdateUserInput.t) (env : Env) (db : Db) :
  NoDup (map User.id (users db)) ->
  In target (users db) ->
  (User.role currentUser = ADMIN \/ User.id currentUser = User.id target) ->
  (forall email,
     UpdateUserInput.email updateUserInput = Some email ->
     email <> ""%string -> email <> User.email target ->
     email_taken email db ->
     rejects_with
       (UsersService.update (User.id target) updateUserInput currentUser env)
       db (ConflictException "Email already registered"))
  /\ (UpdateUserInput.email updateUserInput = Some (User.email target) ->
      forall message db',
        UsersService.update (User.id target) updateUserInput currentUser env db
        <> (Err (ConflictException message), db')).
Proof.
  intros Hnd Hin Hauth.
  pose proof (users_find_id_unique target db Hnd Hin) as Hfind.
  assert (Hallowed :
    negb (UserRole_eqb (User.role currentUser) ADMIN)
    && negb (String.eqb (User.id currentUser) (User.id target)) = false).
  { destruct Hauth as [->| ->]; [reflexivity|].
    rewrite String.eqb_refl. apply andb_false_r. }
  unfold rejects_with.
  rewrite (update_found _ _ _ _ _ _ Hfind), Hallowed.
  split.
  - intros email He Hne Hown Htaken.
    apply users_find_email in Htaken as [v Hv].
    unfold email_conflict. rewrite He, Hv.
    apply String.eqb_neq in Hne, Hown. now rewrite Hne, Hown.
  - intros He message db'.
    unfold email_conflict. rewrite He, String.eqb_refl, andb_false_r. simpl.
    destruct (is_some (UpdateUserInput.role updateUserInput)
              && negb (UserRole_eqb (User.role currentUser) ADMIN));
      [discriminate|].
    unfold try_catch.
    destruct (UserRepository.save env _ db) as [[v|e] d]; discriminate.
Qed.

Lemma update_email_conflict_witness :
  rejects_with
    (UsersService.update (hasher := Sample.bcrypt) "1"
       (UpdateUserInput.mk (Some "jane@example.com") None None None None)
       Sample.john Sample.env)
    Sample.db (ConflictException "Email already registered").
Proof.
  destruct (update_email_conflict (hasher := Sample.bcrypt) Sample.john
              Sample.john
              (UpdateUserInput.mk (Some "jane@example.com") None None None None)
              Sample.env Sample.db) as [Hconflict _].
  - repeat (constructor; [simpl; intuition discriminate|]). constructor.
  - simpl. auto.
  - right. reflexivity.
  - apply (Hconflict "jane@example.com"); try reflexivity; try discriminate.
    exists Sample.jane. simpl. auto.
Defined.

(** X5. After a successful [update] the account found under the id is the
    one the call returned: the fields the input has replace the stored
    ones, a password that is not empty is stored as its hash and an empty
    one as it is, the id and the creation time stay, and no account is
    added or removed. *)
Theorem update_round_trip {hasher : Bcrypt} (i : string)
    (updateUserInput : UpdateUserInput.t) (currentUser u' : User.t)
    (env : Env) (db db' : Db) :
  NoDup (map User.id (users db)) ->
  UsersService.update i updateUserInput currentUser env db = (Ok u', db') ->
  exists old,
    In old (users db) /\ User.id old = i
    /\ UsersService.findOne i db' = (Ok u', db')
    /\ map User.id (users db') = map User.id (users db)
    /\ User.id u' = i
    /\ User.createdAt u' = User.createdAt old
    /\ User.email u'
       = or_else (UpdateUserInput.email updateUserInput) (User.email old)
    /\ User.firstName u'
       = or_else (UpdateUserInput.firstName updateUserInput)
           (User.firstName old)
    /\ User.lastName u'
       = or_else (UpdateUserInput.lastName updateUserInput) (User.lastName old)
    /\ User.role u'
       = or_else (UpdateUserInput.role updateUserInput) (User.role old)
    /\ User.password u'
       = match UpdateUserInput.password updateUserInput with
         | Some password =>
             if String.eqb password "" then ""%string
             else bcrypt_hash password 10 (salt env)
         | None => User.password old
         end.
Proof.
  intros Hnd Hrun.
  destruct (update_ok_inv _ _ _ _ _ _ _ Hrun)
    as [user [Hin [Hid [Hfind [_ [_ [_ [Hu' ->]]]]]]]].
  set (u := UsersService.assign user (rehash env updateUserInput)) in *.
  exists user. split; [exact Hin|]. split; [exact Hid|].
  assert (Hkey : User.id (touch_user (now env) u) = User.id u) by reflexivity.
  split; [|split].
  - unfold UsersService.findOne, UserRepository.findOne, bind. cbn [users].
    rewrite (stored_find User.id User.eqb u (touch_user (now env) u)
               (users db) Hkey _ user (user_matches_id i) Hfind).
    rewrite (stored_loaded User.id User.eqb User_eqb_eq u
               (touch_user (now env) u) (users db) user Hnd Hin eq_refl).
    now rewrite <- Hu'.
  - cbn [users]. now apply stored_keys.
  - destruct (rehash_fields env updateUserInput)
      as [He [Hf [Hl [Hr Hp]]]].
    assert (Hsame : forall proj : User.t -> string,
               (forall a, proj (touch_user (now env) a) = proj a) ->
               proj u' = proj u).
    { intros proj Hproj. rewrite Hu'.
      destruct (existsb _ (users db)); [reflexivity | apply Hproj]. }
    repeat split.
    + rewrite (Hsame User.id) by reflexivity. exact Hid.
    + rewrite Hu'. destruct (existsb _ (users db)); reflexivity.
    + rewrite (Hsame User.email) by reflexivity.
      unfold u, UsersService.assign. simpl. now rewrite He.
    + rewrite (Hsame User.firstName) by reflexivity.
      unfold u, UsersService.assign. simpl. now rewrite Hf.
    + rewrite (Hsame User.lastName) by reflexivity.
      unfold u, UsersService.assign. simpl. now rewrite Hl.
    + rewrite Hu'. destruct (existsb _ (users db));
        unfold u, UsersService.assign; simpl; now rewrite Hr.
    + rewrite (Hsame User.password) by reflexivity.
      unfold u, UsersService.assign. simpl. rewrite Hp.
      now destruct (UpdateUserInput.password updateUserInput).
Qed.

Lemma update_round_trip_witness :
  exists u' db',
    UsersService.update (hasher := Sample.bcrypt) "1"
      (UpdateUserInput.mk None (Some "Johnny") None (Some "") None)
      Sample.john Sample.env Sample.db = (Ok u', db')
    /\ UsersService.findOne "1" db' = (Ok u', db')
    /\ User.firstName u' = "Johnny"%string
    /\ User.password u' = ""%string.
Proof.
  destruct (UsersService.update (hasher := Sample.bcrypt) "1"
              (UpdateUserInput.mk None (Some "Johnny") None (Some "") None)
              Sample.john Sample.env Sample.db) as [[u'|e] db'] eqn:Hrun;
    [|vm_compute in Hrun; discriminate Hrun].
  exists u', db'. split; [reflexivity|].
  destruct (update_round_trip (hasher := Sample.bcrypt) "1"
              (UpdateUserInput.mk None (Some "Johnny") None (Some "") None)
              Sample.john u' Sample.env Sample.db db')
    as [old [_ [_ [Hfound [_ [_ [_ [_ [Hfirst [_ [_ Hpw]]]]]]]]]]].
  - repeat (constructor; [simpl; intuition discriminate|]). constructor.
  - exact Hrun.
  - split; [exact Hfound|]. split; [exact Hfirst | exact Hpw].
Defined.

(** ** Successful calls, read backwards *)

Lemma bind_ok_inv {A B} (m : M A) (k : A -> M B) (db db' : Db) (b : B) :
  bind m k db = (Ok b, db') ->
  exists a d, m db = (Ok a, d) /\ k a d = (Ok b, db').
Proof.
  unfold bind. destruct (m db) as [[a|e] d]; [eauto | discriminate].
Qed.

Lemma throw_if_ok_inv (c : bool) (e : Exception) (db db' : Db) (v : unit) :
  throw_if c e db = (Ok v, db') -> c = false /\ db' = db.
Proof.
  unfold throw_if, throw, ret. destruct c; [discriminate|].
  intros [= _ <-]. now split.
Qed.

Lemma try_catch_ok_inv {A} (m : M A) (e : Exception) (db db' : Db) (a : A) :
  try_catch m e db = (Ok a, db') -> m db = (Ok a, db').
Proof.
  unfold try_catch. destruct (m db) as [[v|x] d]; [|discriminate].
  now intros [= <- <-].
Qed.

Lemma outcome_ok_inv {A} (r : Result A * Db) (db' : Db) :
  outcome r = (None, db') -> exists v, r = (Ok v, db').
Proof.
  destruct r as [[v|e] d]; unfold outcome; simpl; [|discriminate].
  intros [= <-]. now exists v.
Qed.

Lemma users_findOne_ok_inv (i : string) (db db' : Db) (user : User.t) :
  UsersService.findOne i db = (Ok user, db') ->
  db' = db /\ In user (users db) /\ User.id user = i
  /\ find (UserRepository.matches (UserRepository.mkWhere (Some i) None))
       (users db) = Some user.
Proof.
  unfold UsersService.findOne, UserRepository.findOne, bind, throw, ret.
  destruct (find _ (users db)) as [u|] eqn:Hfind; [|discriminate].
  intros [= <- <-]. split; [reflexivity|].
  apply find_some in Hfind as Hsome. destruct Hsome as [Hin Hm].
  unfold UserRepository.matches in Hm. simpl in Hm.
  rewrite andb_true_r in Hm. apply String.eqb_eq in Hm. auto.
Qed.

Lemma posts_findOne_ok_inv (i : string) (db db' : Db) (post : Post.t) :
  PostsService.findOne i db = (Ok post, db') ->
  db' = db /\ In post (posts db) /\ Post.id post = i
  /\ find (PostRepository.matches
             (PostRepository.mkWhere (Some i) None None None))
       (posts db) = Some post.
Proof.
  unfold PostsService.findOne, PostRepository.findOne, bind, throw, ret.
  destruct (find _ (posts db)) as [p|] eqn:Hfind; [|discriminate].
  intros [= <- <-]. split; [reflexivity|].
  apply find_some in Hfind as Hsome. destruct Hsome as [Hin Hm].
  unfold PostRepository.matches in Hm. simpl in Hm.
  rewrite !andb_true_r in Hm. apply String.eqb_eq in Hm. auto.
Qed.

Lemma user_insert_ok_inv (env : Env) (d : UserRepository.Draft)
    (db db' : Db) (u : User.t) :
  UserRepository.insert env d db = (Ok u, db') ->
  db_fault env = false
  /\ u = User.mk (uuid env) (UserRepository.d_email d)
           (UserRepository.d_firstName d) (UserRepository.d_lastName d)
           (UserRepository.d_password d)
           (or_else (UserRepository.d_role d) USER) (now env) (now env)
  /\ db' = mkDb (users db ++ [u]) (posts db).
Proof.
  unfold UserRepository.insert. destruct (db_fault env); [discriminate|].
  intros [= <- <-]. repeat split.
Qed.

Lemma post_insert_ok_inv (env : Env) (d : PostRepository.Draft)
    (db db' : Db) (p : Post.t) :
  PostRepository.insert env d db = (Ok p, db') ->
  db_fault env = false
  /\ p = Post.mk (uuid env) (PostRepository.d_title d)
           (PostRepository.d_content d)
           (or_else (PostRepository.d_published d) Post.published_default)
           (PostRepository.d_authorId d) (now env) (now env)
  /\ db' = mkDb (users db) (posts db ++ [p]).
Proof.
  unfold PostRepository.insert. destruct (db_fault env); [discriminate|].
  intros [= <- <-]. repeat split.
Qed.

Lemma post_save_ok_inv (env : Env) (p p' : Post.t) (db db' : Db) :
  PostRepository.save env p db = (Ok p', db') ->
  db_fault env = false
  /\ p' = (if existsb (fun r => Post.eqb r p) (posts db)
           then p else touch_post (now env) p)
  /\ db' = mkDb (users db)
             (map (replace_row Post.id Post.eqb p (touch_post (now env) p))
                (posts db)).
Proof.
  destruct (db_fault env) eqn:Hfault.
  - unfold PostRepository.save. rewrite Hfault. discriminate.
  - rewrite (post_save_ok _ _ _ Hfault). intros [= <- <-]. repeat split.
Qed.

(** The shape the three saving mutations of a post share. *)
Lemma post_save_flow_inv (i : string) (currentUser : User.t) (env : Env)
    (change : Post.t -> Post.t) (e1 e2 : Exception)
    (db db' : Db) (p' : Post.t) :
  (post <- PostsService.findOne i ;;
   throw_if (denied post currentUser) e1 ;;;
   try_catch (PostRepository.save env (change post)) e2) db = (Ok p', db') ->
  exists post,
    In post (posts db) /\ Post.id post = i
    /\ find (PostRepository.matches
               (PostRepository.mkWhere (Some i) None None None))
         (posts db) = Some post
    /\ canModify post currentUser = true
    /\ db_fault env = false
    /\ p' = (if existsb (fun r => Post.eqb r (change post)) (posts db)
             then change post else touch_post (now env) (change post))
    /\ db' = mkDb (users db)
               (map (replace_row Post.id Post.eqb (change post)
                       (touch_post (now env) (change post)))
                  (posts db)).
Proof.
  intros Hrun.
  apply bind_ok_inv in Hrun as [post [d [Hfound Hrun]]].
  apply posts_findOne_ok_inv in Hfound as [-> [Hin [Hid Hfind]]].
  apply bind_ok_inv in Hrun as [[] [d [Hcheck Hrun]]].
  apply throw_if_ok_inv in Hcheck as [Hallowed ->].
  apply try_catch_ok_inv, post_save_ok_inv in Hrun as [Hfault [-> ->]].
  exists post. repeat split; auto.
  unfold denied in Hallowed. rewrite denied_canModify in Hallowed.
  now apply negb_false_iff.
Qed.

Lemma post_remove_ok_inv (i : string) (currentUser : User.t) (env : Env)
    (db db' : Db) (b : bool) :
  PostsService.remove i currentUser env db = (Ok b, db') ->
  exists post,
    In post (posts db) /\ Post.id post = i
    /\ canModify post currentUser = true
    /\ db_fault env = false
    /\ b = true
    /\ db' = mkDb (users db)
               (filter (fun r => negb (String.eqb (Post.id r) i)) (posts db)).
Proof.
  intros Hrun. unfold PostsService.remove in Hrun.
  apply bind_ok_inv in Hrun as [post [d [Hfound Hrun]]].
  apply posts_findOne_ok_inv in Hfound as [-> [Hin [Hid Hfind]]].
  apply bind_ok_inv in Hrun as [[] [d [Hcheck Hrun]]].
  apply throw_if_ok_inv in Hcheck as [Hallowed ->].
  apply try_catch_ok_inv, bind_ok_inv in Hrun as [[] [d [Hrm Hret]]].
  unfold PostRepository.remove in Hrm.
  destruct (db_fault env); [discriminate|].
  injection Hrm as <-. injection Hret as <- <-.
  exists post. rewrite Hid. repeat split; auto.
  rewrite denied_canModify in Hallowed. now apply negb_false_iff.
Qed.

Lemma user_remove_ok_inv (i : string) (currentUser : User.t) (env : Env)
    (db db' : Db) (b : bool) :
  UsersService.remove i currentUser env db = (Ok b, db') ->
  exists user,
    In user (users db) /\ User.id user = i
    /\ User.role currentUser = ADMIN
    /\ db' = mkDb (filter (fun r => negb (String.eqb (User.id r) i)) (users db))
               (posts db).
Proof.
  intros Hrun. unfold UsersService.remove in Hrun.
  apply bind_ok_inv in Hrun as [user [d [Hfound Hrun]]].
  apply users_findOne_ok_inv in Hfound as [-> [Hin [Hid Hfind]]].
  apply bind_ok_inv in Hrun as [[] [d [Hcheck1 Hrun]]].
  apply throw_if_ok_inv in Hcheck1 as [Hc1 ->].
  apply bind_ok_inv in Hrun as [[] [d [Hcheck2 Hrun]]].
  apply throw_if_ok_inv in Hcheck2 as [Hc2 ->].
  apply try_catch_ok_inv, bind_ok_inv in Hrun as [[] [d [Hrm Hret]]].
  unfold UserRepository.remove in Hrm.
  destruct (db_fault env); [discriminate|].
  injection Hrm as <-. injection Hret as _ <-.
  exists user. rewrite Hid. repeat split; auto.
  destruct (User.role currentUser); [|reflexivity].
  simpl in Hc1, Hc2.
  destruct (String.eqb (User.id currentUser) i); discriminate.
Qed.

Lemma user_create_ok_inv {hasher : Bcrypt} (c : CreateUserInput.t)
    (env : Env) (db db' : Db) (u : User.t) :
  UsersService.create c env db = (Ok u, db') ->
  ~ email_taken (CreateUserInput.email c) db
  /\ db_fault env = false
  /\ u = User.mk (uuid env) (CreateUserInput.email c)
           (CreateUserInput.firstName c) (CreateUserInput.lastName c)
           (bcrypt_hash (CreateUserInput.password c) 10 (salt env))
           (or_else (CreateUserInput.role c) USER) (now env) (now env)
  /\ db' = mkDb (users db ++ [u]) (posts db).
Proof.
  intros Hrun. unfold UsersService.create in Hrun.
  apply bind_ok_inv in Hrun as [existing [d [Hlook Hrun]]].
  unfold UserRepository.findOne in Hlook. injection Hlook as <- <-.
  apply bind_ok_inv in Hrun as [[] [d [Hcheck Hrun]]].
  apply throw_if_ok_inv in Hcheck as [Hnone ->].
  apply try_catch_ok_inv, user_insert_ok_inv in Hrun as [Hfault [-> ->]].
  split; [|repeat split; auto].
  intros Htaken. apply users_find_email in Htaken as [v Hv].
  rewrite Hv in Hnone. discriminate.
Qed.

Lemma register_ok_inv {hasher : Bcrypt} {signer : JwtService}
    (r : RegisterInput.t) (env : Env) (db db' : Db)
    (response : AuthResponse.t) :
  AuthService.register r env db = (Ok response, db') ->
  let u := User.mk (uuid env) (RegisterInput.email r)
             (RegisterInput.firstName r) (RegisterInput.lastName r)
             (bcrypt_hash (RegisterInput.password r) 10 (salt env))
             (or_else (RegisterInput.role r) USER) (now env) (now env) in
  ~ email_taken (RegisterInput.email r) db
  /\ db_fault env = false
  /\ response
     = AuthResponse.mk
         (jwt_sign (mkJwtPayload (User.id u) (User.email u) (User.role u))
            None (now env))
         (jwt_sign (mkJwtPayload (User.id u) (User.email u) (User.role u))
            (Some "7d"%string) (now env))
         u
  /\ db' = mkDb (users db ++ [u]) (posts db).
Proof.
  intros Hrun u. unfold AuthService.register in Hrun.
  apply bind_ok_inv in Hrun as [existing [d [Hlook Hrun]]].
  unfold UserRepository.findOne in Hlook. injection Hlook as <- <-.
  apply bind_ok_inv in Hrun as [[] [d [Hcheck Hrun]]].
  apply throw_if_ok_inv in Hcheck as [Hnone ->].
  apply try_catch_ok_inv, bind_ok_inv in Hrun as [v [d [Hins Hret]]].
  apply user_insert_ok_inv in Hins as [Hfault [-> ->]].
  unfold AuthService.generateTokens, ret in Hret. injection Hret as <- <-.
  split; [|repeat split; auto].
  intros Htaken. apply users_find_email in Htaken as [v Hv].
  rewrite Hv in Hnone. discriminate.
Qed.

(** ** Keys stay unique *)

Lemma NoDup_map_snoc {A B} (key : A -> B) (l : list A) (x : A) :
  NoDup (map key l) -> ~ In (key x) (map key l) ->
  NoDup (map key (l ++ [x])).
Proof.
  intros Hnd Hnotin. rewrite map_app. simpl.
  apply NoDup_app; [exact Hnd | repeat constructor; auto |].
  intros k Hk [<-|[]]. contradiction.
Qed.

Lemma NoDup_rekey {A} (key1 key2 : A -> string) (l : list A)
    (x : A) (e : string) :
  NoDup (map key1 l) -> NoDup (map key2 l) -> In x l ->
  (e = key2 x \/ ~ In e (map key2 l)) ->
  NoDup (map (fun r => if String.eqb (key1 r) (key1 x) then e else key2 r) l).
Proof.
  induction l as [|y l IH]; simpl; intros Hnd1 Hnd2 Hin He; [constructor|].
  inversion Hnd1 as [|k1 ks1 Hnot1 Hnd1']; subst.
  inversion Hnd2 as [|k2 ks2 Hnot2 Hnd2']; subst.
  assert (Hrest : forall r, In r l -> key1 r <> key1 y).
  { intros r Hr Heq. apply Hnot1. rewrite <- Heq. now apply in_map. }
  destruct (String.eqb_spec (key1 y) (key1 x)) as [Hyx|Hyx].
  - assert (y = x) as ->.
    { destruct Hin as [Hin|Hin]; [exact Hin|].
      exfalso. apply (Hrest x Hin). congruence. }
    rewrite (map_ext_in _ key2).
    + constructor; [|exact Hnd2'].
      destruct He as [->|He]; [exact Hnot2 | tauto].
    + intros r Hr. apply Hrest in Hr. apply String.eqb_neq in Hr.
      now rewrite Hr.
  - destruct Hin as [->|Hin]; [contradiction|].
    constructor.
    + intros Hbad. apply in_map_iff in Hbad as [r [Hr Hrin]].
      destruct (String.eqb_spec (key1 r) (key1 x)) as [Hrx|_].
      * destruct He as [->|He].
        -- apply Hnot2. rewrite <- Hr. now apply in_map.
        -- apply He. left. congruence.
      * apply Hnot2. rewrite <- Hr. now apply in_map.
    + apply IH; auto. destruct He as [He|He]; [left; exact He | right; tauto].
Qed.

Lemma email_free_of_find (e : string) (db : Db) :
  find (UserRepository.matches (UserRepository.mkWhere None (Some e)))
    (users db) = None ->
  ~ In e (map User.email (users db)).
Proof.
  intros Hfind Hin. apply in_map_iff in Hin as [u [He Hu]].
  pose proof (find_none _ _ Hfind u Hu) as Hm.
  unfold UserRepository.matches in Hm. simpl in Hm.
  rewrite He, String.eqb_refl in Hm. discriminate.
Qed.

Lemma not_taken_not_in (e : string) (db : Db) :
  ~ email_taken e db -> ~ In e (map User.email (users db)).
Proof.
  intros Hfree Hin. apply Hfree.
  apply in_map_iff in Hin as [u [He Hu]]. now exists u.
Qed.

Lemma no_user_not_in (i : string) (db : Db) :
  no_user i db -> ~ In i (map User.id (users db)).
Proof.
  intros Hno Hin. apply in_map_iff in Hin as [u [Hi Hu]].
  now apply (Hno u Hu).
Qed.

Lemma no_post_not_in (i : string) (db : Db) :
  no_post i db -> ~ In i (map Post.id (posts db)).
Proof.
  intros Hno Hin. apply in_map_iff in Hin as [p [Hi Hp]].
  now apply (Hno p Hp).
Qed.

(** The operations that only look things up leave the store alone,
    whatever they answer. *)
Lemma reads_keep_store {hasher : Bcrypt} {signer : JwtService}
    (op : Operation) (env : Env) (db db' : Db) (o : option Exception) :
  is_read op = true -> exec op env db = (o, db') -> db' = db.
Proof.
  destruct op; try discriminate; intros _; unfold exec, outcome;
    unfold UsersService.findAll, UsersService.findOne,
      UsersService.findByEmail, PostsService.findAll, PostsService.findOne,
      PostsService.findByUser, AuthService.login, AuthService.refreshToken,
      AuthService.validateUser, AuthService.generateTokens,
      UserRepository.findOne, UserRepository.findAndCount,
      PostRepository.findOne, PostRepository.findAndCount,
      bind, throw_if, throw, ret;
    cbn [fst snd];
    split_run;
    intros Heq; inversion Heq; reflexivity.
Qed.

(** X6. Every operation keeps the keys of the data model: if ids and
    emails are unique before a call that succeeds, and the uuid the store
    generates is new, they are unique after it (for [update], given an
    email that is not the empty string). *)
Theorem keys_preserved {hasher : Bcrypt} {signer : JwtService}
    (op : Operation) (env : Env) (db db' : Db) :
  keys_ok db ->
  fresh_uuid env db ->
  email_given op ->
  exec op env db = (None, db') ->
  keys_ok db'.
Proof.
  intros [Hids [Hemails Hpids]] [Hfu Hfp] Hgiven Hexec.
  destruct (is_read op) eqn:Hread.
  { now rewrite (reads_keep_store op env db db' None Hread Hexec). }
  destruct op; try discriminate Hread; simpl in Hexec;
    apply outcome_ok_inv in Hexec as [v Hrun]; unfold keys_ok.
  - apply user_create_ok_inv in Hrun as [Hfree [_ [Hv ->]]]. cbn [users posts].
    repeat split; [| |exact Hpids]; apply NoDup_map_snoc; auto; rewrite Hv;
      simpl; [now apply no_user_not_in | now apply not_taken_not_in].
  - apply update_ok_inv in Hrun
      as [user [Hin [Hid [_ [_ [Hconflict [_ [_ ->]]]]]]]].
    cbn [users posts].
    set (u := UsersService.assign user (rehash env i)) in *.
    repeat split; [| |exact Hpids].
    + rewrite (stored_keys User.id User.eqb u (touch_user (now env) u));
        [exact Hids | reflexivity].
    + rewrite map_map.
      rewrite (map_ext _
                 (fun r => if String.eqb (User.id r) (User.id user)
                           then User.email u else User.email r)).
      * apply NoDup_rekey; auto.
        unfold u, UsersService.assign. simpl.
        destruct (rehash_fields env i) as [-> _].
        unfold email_conflict in Hconflict. simpl in Hgiven.
        destruct (UpdateUserInput.email i) as [e|]; [|now left]. simpl.
        destruct (String.eqb_spec e "") as [->|_]; [congruence|].
        destruct (String.eqb_spec e (User.email user)) as [->|_];
          [now left|]. simpl in Hconflict.
        right. apply email_free_of_find.
        now destruct (find _ (users db)).
      * intros r. unfold replace_row.
        change (User.id u) with (User.id user).
        destruct (String.eqb (User.id r) (User.id user)); [|reflexivity].
        destruct (User.eqb r u) eqn:Hru; [|reflexivity].
        apply User_eqb_eq in Hru. now subst r.
  - apply user_remove_ok_inv in Hrun as [user [_ [_ [_ ->]]]].
    cbn [users posts].
    repeat split; auto; now apply NoDup_map_filter.
  - unfold PostsService.create in Hrun.
    apply try_catch_ok_inv, post_insert_ok_inv in Hrun as [_ [Hv ->]].
    cbn [users posts]. repeat split; auto.
    apply NoDup_map_snoc; auto. rewrite Hv. simpl.
    now apply no_post_not_in.
  - apply (post_save_flow_inv id currentUser env
             (fun post => PostsService.assign post i)) in Hrun
      as [post [_ [_ [_ [_ [_ [_ ->]]]]]]].
    cbn [users posts]. repeat split; auto.
    rewrite stored_keys; [exact Hpids | reflexivity].
  - apply post_remove_ok_inv in Hrun as [post [_ [_ [_ [_ [_ ->]]]]]].
    cbn [users posts]. repeat split; auto. now apply NoDup_map_filter.
  - apply (post_save_flow_inv id currentUser env
             (fun post => PostsService.set_published post true)) in Hrun
      as [post [_ [_ [_ [_ [_ [_ ->]]]]]]].
    cbn [users posts]. repeat split; auto.
    rewrite stored_keys; [exact Hpids | reflexivity].
  - apply (post_save_flow_inv id currentUser env
             (fun post => PostsService.set_published post false)) in Hrun
      as [post [_ [_ [_ [_ [_ [_ ->]]]]]]].
    cbn [users posts]. repeat split; auto.
    rewrite stored_keys; [exact Hpids | reflexivity].
  - apply register_ok_inv in Hrun as [Hfree [_ [_ ->]]]. cbn [users posts].
    repeat split; [| |exact Hpids]; apply NoDup_map_snoc; auto; simpl;
      [now apply no_user_not_in | now apply not_taken_not_in].
Qed.

Lemma keys_preserved_witness :
  keys_ok
    (snd (exec (hasher := Sample.bcrypt) (signer := Sample.jwt)
            (AuthRegister
               (RegisterInput.mk "eve@example.com" "secret1" "Eve" "Doe" None))
            Sample.env Sample.db)).
Proof.
  apply (keys_preserved (hasher := Sample.bcrypt) (signer := Sample.jwt)
           (AuthRegister
              (RegisterInput.mk "eve@example.com" "secret1" "Eve" "Doe" None))
           Sample.env Sample.db).
  - repeat split;
      repeat (constructor; [simpl; intuition discriminate|]); constructor.
  - split; intros r Hin; simpl in Hin;
      repeat (destruct Hin as [<-|Hin]; [discriminate|]); contradiction.
  - exact I.
  - reflexivity.
Defined.

(** ** Posts: what the mutations keep and what they change *)

Lemma stored_proj {A B} (key : A -> string) (eqb : A -> A -> bool)
    (proj : A -> B) (u u' x : A) (l : list A) :
  NoDup (map key l) -> In x l -> key x = key u -> proj u' = proj x ->
  map proj (map (replace_row key eqb u u') l) = map proj l.
Proof.
  intros Hnd Hin Hk Hproj. rewrite map_map. apply map_ext_in. intros r Hr.
  unfold replace_row.
  destruct (String.eqb_spec (key r) (key u)) as [Hru|_]; [|reflexivity].
  destruct (eqb r u); [reflexivity|].
  rewrite Hproj. f_equal.
  apply (NoDup_map_eq key l); congruence.
Qed.

Lemma post_matches_id (i : string) (a b : Post.t) :
  Post.id a = Post.id b ->
  PostRepository.matches (PostRepository.mkWhere (Some i) None None None) a
  = PostRepository.matches (PostRepository.mkWhere (Some i) None None None) b.
Proof. intros H. unfold PostRepository.matches. simpl. now rewrite H. Qed.

(** What a saving mutation leaves behind, for a change of the post that
    keeps its id: the post found under the id afterwards is the one
    returned, and it is the changed post up to [updatedAt]. *)
Lemma post_save_flow_round_trip (i : string) (currentUser : User.t)
    (env : Env) (change : Post.t -> Post.t) (e1 e2 : Exception)
    (db db' : Db) (p' : Post.t) :
  (forall p, Post.id (change p) = Post.id p) ->
  NoDup (map Post.id (posts db)) ->
  (post <- PostsService.findOne i ;;
   throw_if (denied post currentUser) e1 ;;;
   try_catch (PostRepository.save env (change post)) e2) db = (Ok p', db') ->
  exists post,
    In post (posts db) /\ Post.id post = i
    /\ canModify post currentUser = true
    /\ PostsService.findOne i db' = (Ok p', db')
    /\ (p' = change post \/ p' = touch_post (now env) (change post))
    /\ users db' = users db
    /\ map Post.id (posts db') = map Post.id (posts db)
    /\ (forall r, In r (posts db) -> Post.id r <> i -> In r (posts db')).
Proof.
  intros Hchange Hnd Hrun.
  apply post_save_flow_inv in Hrun
    as [post [Hin [Hid [Hfind [Hcan [_ [Hp' ->]]]]]]].
  exists post. split; [exact Hin|]. split; [exact Hid|].
  split; [exact Hcan|].
  set (p := change post) in *.
  assert (Hkey : Post.id (touch_post (now env) p) = Post.id p) by reflexivity.
  assert (Hp : Post.id post = Post.id p) by (symmetry; apply Hchange).
  split; [|split; [|split; [reflexivity|split]]].
  - unfold PostsService.findOne, PostRepository.findOne, bind. cbn [posts].
    rewrite (stored_find Post.id Post.eqb p (touch_post (now env) p)
               (posts db) Hkey _ post (post_matches_id i) Hfind).
    rewrite (stored_loaded Post.id Post.eqb Post_eqb_eq p
               (touch_post (now env) p) (posts db) post Hnd Hin Hp).
    now rewrite <- Hp'.
  - rewrite Hp'. destruct (existsb _ (posts db)); auto.
  - cbn [posts]. now apply stored_keys.
  - intros r Hr Hne. cbn [posts]. apply in_map_iff. exists r.
    split; [|exact Hr]. apply stored_other. congruence.
Qed.

(** X7. The author of a post cannot be changed: a successful [update],
    [publishPost] or [unpublishPost] leaves the ids, the author ids and
    the creation times of all posts, and the whole users table, as they
    were. *)
Theorem post_author_immutable (i : string) (updatePostInput : UpdatePostInput.t)
    (currentUser : User.t) (env : Env) (db db' : Db) (p' : Post.t) :
  NoDup (map Post.id (posts db)) ->
  PostsService.update i updatePostInput currentUser env db = (Ok p', db')
  \/ PostsService.publishPost i currentUser env db = (Ok p', db')
  \/ PostsService.unpublishPost i currentUser env db = (Ok p', db') ->
  map Post.id (posts db') = map Post.id (posts db)
  /\ map Post.authorId (posts db') = map Post.authorId (posts db)
  /\ map Post.createdAt (posts db') = map Post.createdAt (posts db)
  /\ users db' = users db.
Proof.
  intros Hnd Hrun.
  assert (Hflow : exists change,
    (forall p, Post.id (change p) = Post.id p
               /\ Post.authorId (change p) = Post.authorId p
               /\ Post.createdAt (change p) = Post.createdAt p)
    /\ exists post,
         In post (posts db) /\ Post.id post = i
         /\ db' = mkDb (users db)
                    (map (replace_row Post.id Post.eqb (change post)
                            (touch_post (now env) (change post)))
                       (posts db))).
  { destruct Hrun as [Hrun|[Hrun|Hrun]].
    - exists (fun post => PostsService.assign post updatePostInput).
      split; [intros p; repeat split|].
      apply (post_save_flow_inv i currentUser env
               (fun post => PostsService.assign post updatePostInput)) in Hrun
        as [post [Hin [Hid [_ [_ [_ [_ ->]]]]]]]. eauto.
    - exists (fun post => PostsService.set_published post true).
      split; [intros p; repeat split|].
      apply (post_save_flow_inv i currentUser env
               (fun post => PostsService.set_published post true)) in Hrun
        as [post [Hin [Hid [_ [_ [_ [_ ->]]]]]]]. eauto.
    - exists (fun post => PostsService.set_published post false).
      split; [intros p; repeat split|].
      apply (post_save_flow_inv i currentUser env
               (fun post => PostsService.set_published post false)) in Hrun
        as [post [Hin [Hid [_ [_ [_ [_ ->]]]]]]]. eauto. }
  destruct Hflow as [change [Hchange [post [Hin [Hid ->]]]]].
  destruct (Hchange post) as [Hcid [Hcauthor Hccreated]].
  cbn [users posts]. repeat split.
  - apply stored_keys. reflexivity.
  - apply (stored_proj _ _ _ _ _ post); auto.
  - apply (stored_proj _ _ _ _ _ post); auto.
Qed.

Lemma post_author_immutable_witness :
  map Post.authorId
    (posts (snd (PostsService.update "p1"
                   (UpdatePostInput.mk (Some "Edited") None (Some false))
                   Sample.admin Sample.env Sample.db)))
  = ["1"; "3"; "1"]%string.
Proof.
  destruct (PostsService.update "p1"
              (UpdatePostInput.mk (Some "Edited") None (Some false))
              Sample.admin Sample.env Sample.db) as [[p'|e] db'] eqn:Hrun;
    [|vm_compute in Hrun; discriminate Hrun].
  destruct (post_author_immutable "p1"
              (UpdatePostInput.mk (Some "Edited") None (Some false))
              Sample.admin Sample.env Sample.db db' p') as [_ [Hauthors _]].
  - repeat (constructor; [simpl; intuition discriminate|]). constructor.
  - left. exact Hrun.
  - exact Hauthors.
Defined.

(** X8. A successful [update] of a post changes exactly the fields the
    input has: the post found under the id afterwards is the one
    returned, with the title, content and published flag of the input
    where present and the stored ones otherwise, and every other post is
    stored as it was.  Only an admin or the author gets that far. *)
Theorem post_update_round_trip (i : string) (updatePostInput : UpdatePostInput.t)
    (currentUser : User.t) (env : Env) (db db' : Db) (p' : Post.t) :
  NoDup (map Post.id (posts db)) ->
  PostsService.update i updatePostInput currentUser env db = (Ok p', db') ->
  exists post,
    In post (posts db) /\ Post.id post = i
    /\ canModify post currentUser = true
    /\ PostsService.findOne i db' = (Ok p', db')
    /\ Post.title p'
       = or_else (UpdatePostInput.title updatePostInput) (Post.title post)
    /\ Post.content p'
       = or_else (UpdatePostInput.content updatePostInput) (Post.content post)
    /\ Post.published p'
       = or_else (UpdatePostInput.published updatePostInput)
           (Post.published post)
    /\ (forall r, In r (posts db) -> Post.id r <> i -> In r (posts db')).
Proof.
  intros Hnd Hrun.
  apply (post_save_flow_round_trip i currentUser env
           (fun post => PostsService.assign post updatePostInput)) in Hrun
    as [post [Hin [Hid [Hcan [Hfound [Hp' [_ [_ Hothers]]]]]]]];
    [|reflexivity|exact Hnd].
  exists post. repeat split; auto; destruct Hp' as [-> | ->]; reflexivity.
Qed.

Lemma post_update_round_trip_witness :
  exists p' db',
    PostsService.update "p3" (UpdatePostInput.mk (Some "GraphQL notes") None None)
      Sample.john Sample.env Sample.db = (Ok p', db')
    /\ PostsService.findOne "p3" db' = (Ok p', db')
    /\ Post.title p' = "GraphQL notes"%string
    /\ Post.published p' = false.
Proof.
  destruct (PostsService.update "p3"
              (UpdatePostInput.mk (Some "GraphQL notes") None None)
              Sample.john Sample.env Sample.db) as [[p'|e] db'] eqn:Hrun;
    [|vm_compute in Hrun; discriminate Hrun].
  exists p', db'. split; [reflexivity|].
  destruct (post_update_round_trip "p3"
              (UpdatePostInput.mk (Some "GraphQL notes") None None)
              Sample.john Sample.env Sample.db db' p')
    as [post [Hin [Hid [_ [Hfound [Htitle [_ [Hpub _]]]]]]]].
  - repeat (constructor; [simpl; intuition discriminate|]). constructor.
  - exact Hrun.
  - split; [exact Hfound|]. split; [exact Htitle|].
    rewrite Hpub. simpl in Hin.
    destruct Hin as [<-|[<-|[<-|[]]]]; [discriminate Hid..|reflexivity].
Defined.

(** X9. A successful [publishPost] returns and stores the post with
    [published] true, a successful [unpublishPost] with [published]
    false; title, content and author are those of the stored post, and
    the post found under the id afterwards is the one returned. *)
Theorem publish_round_trip (i : string) (currentUser : User.t)
    (env : Env) (db db' : Db) (p' : Post.t) (flag : bool) :
  NoDup (map Post.id (posts db)) ->
  (if flag then PostsService.publishPost i currentUser env db
   else PostsService.unpublishPost i currentUser env db) = (Ok p', db') ->
  exists post,
    In post (posts db) /\ Post.id post = i
    /\ canModify post currentUser = true
    /\ Post.published p' = flag
    /\ Post.title p' = Post.title post
    /\ Post.content p' = Post.content post
    /\ Post.authorId p' = Post.authorId post
    /\ PostsService.findOne i db' = (Ok p', db').
Proof.
  intros Hnd Hrun.
  assert (Hflow :
    (post <- PostsService.findOne i ;;
     throw_if (denied post currentUser)
       (ForbiddenException
          (if flag then "You can only publish your own posts"
           else "You can only unpublish your own posts")%string) ;;;
     try_catch
       (PostRepository.save env (PostsService.set_published post flag))
       (InternalServerErrorException
          (if flag then "Failed to publish post"
           else "Failed to unpublish post")%string)) db = (Ok p', db')).
  { destruct flag; exact Hrun. }
  apply (post_save_flow_round_trip i currentUser env
           (fun post => PostsService.set_published post flag)) in Hflow
    as [post [Hin [Hid [Hcan [Hfound [Hp' _]]]]]];
    [|reflexivity|exact Hnd].
  exists post. repeat split; auto; destruct Hp' as [-> | ->]; reflexivity.
Qed.

Lemma publish_round_trip_witness :
  exists p' db',
    PostsService.publishPost "p3" Sample.john Sample.env Sample.db
    = (Ok p', db')
    /\ Post.published p' = true
    /\ PostsService.findOne "p3" db' = (Ok p', db').
Proof.
  destruct (PostsService.publishPost "p3" Sample.john Sample.env Sample.db)
    as [[p'|e] db'] eqn:Hrun; [|vm_compute in Hrun; discriminate Hrun].
  exists p', db'. split; [reflexivity|].
  destruct (publish_round_trip "p3" Sample.john Sample.env Sample.db db' p'
              true)
    as [post [_ [_ [_ [Hpub [_ [_ [_ Hfound]]]]]]]].
  - repeat (constructor; [simpl; intuition discriminate|]). constructor.
  - exact Hrun.
  - split; [exact Hpub | exact Hfound].
Defined.

Lemma find_app_fresh {A} (f : A -> bool) (l : list A) (x : A) :
  (forall y, In y l -> f y = false) -> f x = true ->
  find f (l ++ [x]) = Some x.
Proof.
  intros Hl Hx. induction l as [|y l IH]; simpl.
  - now rewrite Hx.
  - rewrite (Hl y) by now left. apply IH. intros z Hz. apply Hl. now right.
Qed.

(** X10. A post created while the store takes the write and generates a
    new uuid is found under its id afterwards, has the title and content
    of the input, and joins the stored posts at the end, all of which
    stay; when the store refuses, the call fails with
    [InternalServerError] and nothing is stored. *)
Theorem post_create_round_trip (createPostInput : CreatePostInput.t)
    (author : User.t) (env : Env) (db : Db) :
  no_post (uuid env) db ->
  (db_fault env = false ->
   exists post,
     PostsService.create createPostInput author env db
     = (Ok post, mkDb (users db) (posts db ++ [post]))
     /\ PostsService.findOne (Post.id post)
          (mkDb (users db) (posts db ++ [post]))
        = (Ok post, mkDb (users db) (posts db ++ [post]))
     /\ Post.id post = uuid env
     /\ Post.title post = CreatePostInput.title createPostInput
     /\ Post.content post = CreatePostInput.content createPostInput
     /\ Post.createdAt post = now env)
  /\ (db_fault env = true ->
      rejects_with (PostsService.create createPostInput author env) db
        (InternalServerErrorException "Failed to create post")).
Proof.
  intros Hfresh. unfold rejects_with.
  unfold PostsService.create, PostRepository.insert, try_catch.
  split; intros ->; [|reflexivity].
  eexists. split; [reflexivity|]. split; [|repeat split].
  unfold PostsService.findOne, PostRepository.findOne, bind. cbn [posts].
  rewrite find_app_fresh; [reflexivity| |].
  - intros p Hp. unfold PostRepository.matches. simpl. rewrite !andb_true_r.
    apply String.eqb_neq. now apply Hfresh.
  - unfold PostRepository.matches. simpl. now rewrite String.eqb_refl.
Qed.

Lemma post_create_round_trip_witness :
  exists post,
    PostsService.create (CreatePostInput.mk "Hello" "First post" (Some true))
      Sample.john Sample.env Sample.db
    = (Ok post, mkDb (users Sample.db) (posts Sample.db ++ [post]))
    /\ Post.id post = "fresh-uuid"%string.
Proof.
  destruct (post_create_round_trip
              (CreatePostInput.mk "Hello" "First post" (Some true))
              Sample.john Sample.env Sample.db) as [Hok _].
  - intros p Hin. simpl in Hin.
    repeat (destruct Hin as [<-|Hin]; [discriminate|]). contradiction.
  - destruct (Hok eq_refl) as [post [Hrun [_ [Hid _]]]].
    exists post. split; [exact Hrun | exact Hid].
Defined.

(** X11. A successful [remove] of a post deletes the post with that id
    and nothing else: afterwards the id is not found, the other posts
    are all stored as they were, and the users are untouched. *)
Theorem post_remove_round_trip (i : string) (currentUser : User.t)
    (env : Env) (db db' : Db) (b : bool) :
  PostsService.remove i currentUser env db = (Ok b, db') ->
  b = true
  /\ rejects_with (PostsService.findOne i) db'
       (NotFoundException (not_found_message "Post" i))
  /\ (forall p, In p (posts db') <-> In p (posts db) /\ Post.id p <> i)
  /\ users db' = users db.
Proof.
  intros Hrun.
  apply post_remove_ok_inv in Hrun as [post [_ [_ [_ [_ [-> ->]]]]]].
  split; [reflexivity|].
  assert (Hleft : forall p,
            In p (filter (fun r => negb (String.eqb (Post.id r) i)) (posts db))
            <-> In p (posts db) /\ Post.id p <> i).
  { intros p. rewrite filter_In, negb_true_iff, String.eqb_neq. tauto. }
  split; [|split; [exact Hleft | reflexivity]].
  unfold rejects_with, PostsService.findOne, PostRepository.findOne, bind.
  rewrite posts_find_id_none; [reflexivity|].
  intros p Hp. cbn [posts] in Hp. now apply Hleft in Hp.
Qed.

Lemma post_remove_round_trip_witness :
  rejects_with (PostsService.findOne "p1")
    (snd (PostsService.remove "p1" Sample.john Sample.env Sample.db))
    (NotFoundException (not_found_message "Post" "p1")).
Proof.
  destruct (PostsService.remove "p1" Sample.john Sample.env Sample.db)
    as [[b|e] db'] eqn:Hrun; [|vm_compute in Hrun; discriminate Hrun].
  destruct (post_remove_round_trip "p1" Sample.john Sample.env Sample.db db' b
              Hrun) as [_ [Hgone _]].
  exact Hgone.
Defined.

(** ** Pages *)

Lemma users_findAll_page (pg : PaginationInput.t) (db : Db) :
  UsersService.findAll pg db
  = (Ok (page_of (order_desc User.createdAt (users db)) pg), db).
Proof. reflexivity. Qed.

Lemma posts_findAll_page (pg : PaginationInput.t)
    (f : option PostFilterInput.t) (db : Db) :
  PostsService.findAll pg f db
  = (Ok (page_of
           (order_desc Post.createdAt
              (filter (PostRepository.matches (PostsService.where_of f))
                 (posts db))) pg), db).
Proof. reflexivity. Qed.

Lemma posts_findByUser_page (userId : string) (pg : PaginationInput.t)
    (db : Db) :
  PostsService.findByUser userId pg db
  = (Ok (page_of
           (order_desc Post.createdAt
              (filter (PostRepository.matches
                         (PostRepository.mkWhere None None (Some userId) None))
                 (posts db))) pg), db).
Proof. reflexivity. Qed.

Lemma offset_limit_exact {A} (skip take : Z) (l : list A) :
  0 <= skip -> 0 <= take ->
  Z.of_nat (List.length (offset_limit skip take l))
  = Z.min take (Z.max 0 (Z.of_nat (List.length l) - skip)).
Proof.
  intros Hskip Htake. unfold offset_limit.
  rewrite length_firstn, length_skipn. lia.
Qed.

Lemma has_next_iff_rows_left (p T L : Z) :
  1 <= L -> (p <? Math_ceil_div T L) = (p * L <? T).
Proof.
  intros HL. pose proof (Math_ceil_div_least T L ltac:(lia)) as Hc.
  destruct (Z.ltb_spec p (Math_ceil_div T L)),
    (Z.ltb_spec (p * L) T); try reflexivity; nia.
Qed.

Lemma page_of_exact {A} (rows : list A) (pg : PaginationInput.t) :
  1 <= or_else (PaginationInput.limit pg) 10 ->
  1 <= or_else (PaginationInput.page pg) 1 ->
  page_exact (page_of rows pg).
Proof.
  intros Hlimit Hpage. unfold page_exact, page_of. simpl.
  set (L := or_else (PaginationInput.limit pg) 10) in *.
  set (p := or_else (PaginationInput.page pg) 1) in *.
  split; [apply offset_limit_exact; nia|].
  split; [now apply has_next_iff_rows_left|].
  intros Hbehind.
  pose proof (Math_ceil_div_least (Z.of_nat (List.length rows)) L
                ltac:(lia)) as Hc.
  apply length_zero_iff_nil.
  pose proof (offset_limit_exact ((p - 1) * L) L rows ltac:(nia) ltac:(lia)).
  nia.
Qed.

(** X12. For page and limit at least 1, each of the three listings
    answers with exactly the rows left for the page,
    [min(limit, max(0, total - (page-1)*limit))] of them; [hasNextPage]
    holds exactly when rows are left after the page
    ([page * limit < total]); and a page behind the last one is empty. *)
Theorem listing_page_exact (pg : PaginationInput.t)
    (f : option PostFilterInput.t) (userId : string) (db : Db) :
  1 <= or_else (PaginationInput.limit pg) 10 ->
  1 <= or_else (PaginationInput.page pg) 1 ->
  (exists r, UsersService.findAll pg db = (Ok r, db) /\ page_exact r)
  /\ (exists r, PostsService.findAll pg f db = (Ok r, db) /\ page_exact r)
  /\ (exists r, PostsService.findByUser userId pg db = (Ok r, db)
                /\ page_exact r).
Proof.
  intros Hlimit Hpage.
  rewrite users_findAll_page, posts_findAll_page, posts_findByUser_page.
  repeat split; eexists; (split; [reflexivity|]); now apply page_of_exact.
Qed.

Lemma listing_page_exact_witness :
  exists r,
    PostsService.findAll (PaginationInput.mk (Some 3) (Some 2)) None Sample.db
    = (Ok r, Sample.db)
    /\ page_exact r.
Proof.
  destruct (listing_page_exact (PaginationInput.mk (Some 3) (Some 2)) None "1"
              Sample.db) as [_ [Hposts _]]; [simpl; lia..|].
  exact Hposts.
Defined.

Lemma firstn_plus {A} (n m : nat) (l : list A) :
  firstn (n + m) l = firstn n l ++ firstn m (skipn n l).
Proof.
  revert l. induction n as [|n IH]; intros [|x l]; simpl;
    try reflexivity.
  - now rewrite firstn_nil.
  - now rewrite IH.
Qed.

Lemma offset_limit_next {A} (skip take : Z) (l : list A) :
  0 <= skip -> 0 <= take ->
  offset_limit skip take l ++ offset_limit (skip + take) take l
  = offset_limit skip (take + take) l.
Proof.
  intros Hskip Htake. unfold offset_limit.
  rewrite !Z2Nat.inj_add by lia.
  rewrite (Nat.add_comm (Z.to_nat skip)), <- skipn_skipn.
  now rewrite firstn_plus.
Qed.

(** X13. Consecutive pages tile the listing: on an unchanged store whose
    rows have distinct creation times (so that the order of the query is
    determined), the items of a page followed by the items of the next
    page are the run of [2 * limit] rows that starts where the page
    starts, so no row is listed twice or skipped between them. *)
Theorem consecutive_pages_tile (pg : PaginationInput.t)
    (f : option PostFilterInput.t) (userId : string) (db : Db) :
  NoDup (map User.createdAt (users db)) ->
  NoDup (map Post.createdAt (posts db)) ->
  1 <= or_else (PaginationInput.limit pg) 10 ->
  1 <= or_else (PaginationInput.page pg) 1 ->
  let page := or_else (PaginationInput.page pg) 1 in
  let limit := or_else (PaginationInput.limit pg) 10 in
  listed (UsersService.findAll pg db)
    ++ listed (UsersService.findAll (next_page pg) db)
  = offset_limit ((page - 1) * limit) (limit + limit)
      (order_desc User.createdAt (users db))
  /\ listed (PostsService.findAll pg f db)
       ++ listed (PostsService.findAll (next_page pg) f db)
     = offset_limit ((page - 1) * limit) (limit + limit)
         (order_desc Post.createdAt
            (filter (PostRepository.matches (PostsService.where_of f))
               (posts db)))
  /\ listed (PostsService.findByUser userId pg db)
       ++ listed (PostsService.findByUser userId (next_page pg) db)
     = offset_limit ((page - 1) * limit) (limit + limit)
         (order_desc Post.createdAt
            (filter (PostRepository.matches
                       (PostRepository.mkWhere None None (Some userId) None))
               (posts db))).
Proof.
  intros _ _ Hlimit Hpage page limit.
  rewrite !users_findAll_page, !posts_findAll_page, !posts_findByUser_page.
  unfold listed, page_of, next_page. cbn [fst Paginated.items or_else
    PaginationInput.page PaginationInput.limit].
  fold page limit.
  replace ((page + 1 - 1) * limit) with ((page - 1) * limit + limit) by lia.
  repeat split; apply offset_limit_next; subst page limit; nia.
Qed.

Lemma consecutive_pages_tile_witness :
  listed (PostsService.findAll (PaginationInput.mk (Some 1) (Some 1)) None
            Sample.db)
    ++ listed (PostsService.findAll (PaginationInput.mk (Some 2) (Some 1)) None
                 Sample.db)
  = [Sample.post3; Sample.post2].
Proof.
  destruct (consecutive_pages_tile (PaginationInput.mk (Some 1) (Some 1)) None
              "1" Sample.db) as [_ [Hposts _]].
  - repeat (constructor; [simpl; intuition discriminate|]). constructor.
  - repeat (constructor; [simpl; intuition discriminate|]). constructor.
  - simpl. lia.
  - simpl. lia.
  - exact Hposts.
Defined.

Lemma insert_desc_descending {A} (key : A -> Z) (x : A) (l : list A) :
  descending (map key l) -> descending (map key (insert_desc key x l)).
Proof.
  induction l as [|y l IH]; simpl; [tauto|].
  intros [Hy Hl].
  destruct (Z.leb_spec (key y) (key x)) as [Hle|Hlt]; simpl.
  - split; [|split; assumption].
    intros s [<-|Hs]; [exact Hle|]. specialize (Hy s Hs). lia.
  - split; [|now apply IH].
    intros s Hs. apply in_map_iff in Hs as [z [<- Hz]].
    apply (Permutation_in _ (insert_desc_perm key x l)) in Hz.
    destruct Hz as [<-|Hz]; [lia|]. apply Hy. now apply in_map.
Qed.

Lemma order_desc_descending {A} (key : A -> Z) (l : list A) :
  descending (map key (order_desc key l)).
Proof.
  induction l as [|x l IH]; simpl; [exact I|].
  now apply insert_desc_descending.
Qed.

Lemma descending_skipn (n : nat) (ts : list Z) :
  descending ts -> descending (skipn n ts).
Proof.
  revert ts. induction n as [|n IH]; intros [|t ts]; simpl; auto.
  intros [_ Hts]. now apply IH.
Qed.

Lemma descending_firstn (n : nat) (ts : list Z) :
  descending ts -> descending (firstn n ts).
Proof.
  revert ts. induction n as [|n IH]; intros [|t ts]; simpl; auto.
  intros [Ht Hts]. split; [|now apply IH].
  intros s Hs. apply Ht. eapply In_firstn, Hs.
Qed.

Lemma offset_limit_descending {A} (key : A -> Z) (skip take : Z)
    (l : list A) :
  descending (map key l) -> descending (map key (offset_limit skip take l)).
Proof.
  intros Hl. unfold offset_limit. rewrite <- firstn_map, <- skipn_map.
  now apply descending_firstn, descending_skipn.
Qed.

(** X14. Every listing is newest first: the creation times of the items
    of a page never increase along the page. *)
Theorem listings_newest_first (pg : PaginationInput.t)
    (f : option PostFilterInput.t) (userId : string) (db : Db) :
  descending (map User.createdAt (listed (UsersService.findAll pg db)))
  /\ descending (map Post.createdAt (listed (PostsService.findAll pg f db)))
  /\ descending
       (map Post.createdAt (listed (PostsService.findByUser userId pg db))).
Proof.
  rewrite users_findAll_page, posts_findAll_page, posts_findByUser_page.
  unfold listed, page_of. cbn [fst Paginated.items].
  repeat split; apply offset_limit_descending, order_desc_descending.
Qed.

(** ** Sessions *)

Lemma users_find_email_snoc (u : User.t) (db : Db) :
  ~ email_taken (User.email u) db ->
  find (UserRepository.matches
          (UserRepository.mkWhere None (Some (User.email u))))
    (users db ++ [u]) = Some u.
Proof.
  intros Hfree. apply find_app_fresh.
  - intros y Hy. unfold UserRepository.matches. simpl.
    apply String.eqb_neq. intros He. apply Hfree. now exists y.
  - unfold UserRepository.matches. simpl. apply String.eqb_refl.
Qed.

(** X15. Registration and login fit together: after a successful
    [register], a [login] with the registered email succeeds exactly when
    [bcrypt] accepts the given password for the hash of the registered
    one; it then answers with the registered user and tokens signing the
    user's generated id, email and role, and otherwise fails with
    [Unauthorized]. *)
Theorem register_then_login {hasher : Bcrypt} {signer : JwtService}
    (registerInput : RegisterInput.t) (env env2 : Env) (db db' : Db)
    (response : AuthResponse.t) (password : string) :
  AuthService.register registerInput env db = (Ok response, db') ->
  let payload :=
    mkJwtPayload (uuid env) (RegisterInput.email registerInput)
      (or_else (RegisterInput.role registerInput) USER) in
  AuthService.login
    (LoginInput.mk (RegisterInput.email registerInput) password) env2 db'
  = if bcrypt_compare password
         (bcrypt_hash (RegisterInput.password registerInput) 10 (salt env))
    then (Ok (AuthResponse.mk (jwt_sign payload None (now env2))
                (jwt_sign payload (Some "7d"%string) (now env2))
                (AuthResponse.user response)), db')
    else (Err (UnauthorizedException "Invalid credentials"), db').
Proof.
  intros Hrun payload.
  apply register_ok_inv in Hrun as [Hfree [_ [-> ->]]].
  unfold AuthService.login, AuthService.comparePasswords,
    AuthService.generateTokens, UserRepository.findOne,
    bind, throw_if, throw, ret.
  cbn [users LoginInput.email LoginInput.password AuthResponse.user].
  match goal with
  | |- context [find _ (users db ++ [?u])] =>
      pose proof (users_find_email_snoc u db Hfree) as Hfind
  end.
  cbn [User.email] in Hfind. rewrite Hfind.
  cbn [User.password].
  destruct (bcrypt_compare password _); reflexivity.
Qed.

Lemma register_then_login_witness :
  exists response db',
    AuthService.register (hasher := Sample.bcrypt) (signer := Sample.jwt)
      (RegisterInput.mk "eve@example.com" "secret1" "Eve" "Doe" None)
      Sample.env Sample.db = (Ok response, db')
    /\ AuthService.login (hasher := Sample.bcrypt) (signer := Sample.jwt)
         (LoginInput.mk "eve@example.com" "secret1") Sample.env db'
       = (Ok (AuthResponse.mk "fresh-uuid.1d" "fresh-uuid.7d"
                (AuthResponse.user response)), db').
Proof.
  destruct (AuthService.register (hasher := Sample.bcrypt)
              (signer := Sample.jwt)
              (RegisterInput.mk "eve@example.com" "secret1" "Eve" "Doe" None)
              Sample.env Sample.db) as [[response|e] db'] eqn:Hrun;
    [|vm_compute in Hrun; discriminate Hrun].
  exists response, db'. split; [reflexivity|].
  exact (register_then_login (hasher := Sample.bcrypt) (signer := Sample.jwt)
           (RegisterInput.mk "eve@example.com" "secret1" "Eve" "Doe" None)
           Sample.env Sample.env Sample.db db' response "secret1" Hrun).
Defined.

(** X16. [validateUser] and [refreshToken] go by the id alone: for an id
    no stored user has both fail with [Unauthorized]; for the id of a
    stored user [validateUser] answers with the user and [refreshToken]
    with the user and tokens signing the user's stored id, email and
    role, nothing else being asked for; neither writes. *)
Theorem session_by_id {signer : JwtService} (env : Env) (db : Db) :
  NoDup (map User.id (users db)) ->
  (forall i, no_user i db ->
     rejects_with (AuthService.validateUser i) db
       (UnauthorizedException "User not found")
     /\ rejects_with (AuthService.refreshToken i env) db
          (UnauthorizedException "User not found"))
  /\ (forall u, In u (users db) ->
        let payload :=
          mkJwtPayload (User.id u) (User.email u) (User.role u) in
        AuthService.validateUser (User.id u) db = (Ok u, db)
        /\ AuthService.refreshToken (User.id u) env db
           = (Ok (AuthResponse.mk (jwt_sign payload None (now env))
                    (jwt_sign payload (Some "7d"%string) (now env)) u), db)).
Proof.
  intros Hnd.
  unfold rejects_with, AuthService.validateUser, AuthService.refreshToken,
    AuthService.generateTokens, UserRepository.findOne, bind, throw, ret.
  split.
  - intros i Hno. now rewrite (users_find_id_none i db Hno).
  - intros u Hin. cbv zeta.
    now rewrite (users_find_id_unique u db Hnd Hin).
Qed.

Lemma session_by_id_witness :
  AuthService.validateUser "3" Sample.db = (Ok Sample.jane, Sample.db)
  /\ AuthService.refreshToken (signer := Sample.jwt) "3" Sample.env Sample.db
     = (Ok (AuthResponse.mk "3.1d" "3.7d" Sample.jane), Sample.db).
Proof.
  destruct (session_by_id (signer := Sample.jwt) Sample.env Sample.db)
    as [_ Hknown].
  - repeat (constructor; [simpl; intuition discriminate|]). constructor.
  - apply (Hknown Sample.jane). simpl. auto.
Defined.

(** X17. A removed account is gone for every lookup: after a successful
    [remove] of a user, with ids and emails unique, [findOne] on the id
    fails with [NotFound], [validateUser] with [Unauthorized], a [login]
    with the account's email fails with [Unauthorized] whatever the
    password, and all other accounts are still stored. *)
Theorem user_remove_round_trip {hasher : Bcrypt} {signer : JwtService}
    (target currentUser : User.t) (env env2 : Env) (db db' : Db) (b : bool)
    (password : string) :
  keys_ok db ->
  In target (users db) ->
  UsersService.remove (User.id target) currentUser env db = (Ok b, db') ->
  rejects_with (UsersService.findOne (User.id target)) db'
    (NotFoundException (not_found_message "User" (User.id target)))
  /\ rejects_with (AuthService.validateUser (User.id target)) db'
       (UnauthorizedException "User not found")
  /\ rejects_with
       (AuthService.login (LoginInput.mk (User.email target) password) env2)
       db' (UnauthorizedException "Invalid credentials")
  /\ (forall u, In u (users db) -> User.id u <> User.id target ->
                In u (users db')).
Proof.
  intros [Hids [Hemails _]] Hin Hrun.
  apply user_remove_ok_inv in Hrun as [user [_ [_ [_ ->]]]].
  set (db' := mkDb _ (posts db)).
  assert (Hleft : forall u, In u (users db')
                            <-> In u (users db) /\ User.id u <> User.id target).
  { intros u. unfold db'. cbn [users].
    rewrite filter_In, negb_true_iff, String.eqb_neq. tauto. }
  assert (Hno : no_user (User.id target) db').
  { intros u Hu. now apply Hleft in Hu. }
  assert (Hfree : ~ email_taken (User.email target) db').
  { intros [u [Hu He]]. apply Hleft in Hu as [Hu Hne]. apply Hne.
    f_equal. apply (NoDup_map_eq User.email (users db)); auto. }
  unfold rejects_with.
  split; [|split; [|split]].
  - unfold UsersService.findOne, UserRepository.findOne, bind.
    now rewrite (users_find_id_none _ _ Hno).
  - unfold AuthService.validateUser, UserRepository.findOne, bind.
    now rewrite (users_find_id_none _ _ Hno).
  - unfold AuthService.login, UserRepository.findOne, bind.
    cbn [LoginInput.email].
    now rewrite (users_find_email_none _ _ Hfree).
  - intros u Hu Hne. apply Hleft. now split.
Qed.

Lemma user_remove_round_trip_witness :
  rejects_with
    (AuthService.login (hasher := Sample.bcrypt) (signer := Sample.jwt)
       (LoginInput.mk "john@example.com" "password123") Sample.env)
    (snd (UsersService.remove "1" Sample.admin Sample.env Sample.db))
    (UnauthorizedException "Invalid credentials").
Proof.
  destruct (UsersService.remove "1" Sample.admin Sample.env Sample.db)
    as [[b|e] db'] eqn:Hrun; [|vm_compute in Hrun; discriminate Hrun].
  destruct (user_remove_round_trip (hasher := Sample.bcrypt)
              (signer := Sample.jwt) Sample.john Sample.admin Sample.env
              Sample.env Sample.db db' b "password123")
    as [_ [_ [Hlogin _]]].
  - repeat split;
      repeat (constructor; [simpl; intuition discriminate|]); constructor.
  - simpl. auto.
  - exact Hrun.
  - exact Hlogin.
Defined.

(** ** What a client is told *)




(** X19. For an [HttpException] the filter keeps the status whatever it
    is, but has a code of its own only for six statuses: the code is
    [INTERNAL_SERVER_ERROR] exactly for the statuses it does not name
    (429 as well as 500), and on the six it names the code tells the
    status. *)
Theorem filter_http_codes (status status' : Z)
    (response : GraphQLExceptionFilter.Response)
    (info : GraphQLExceptionFilter.Info) (t : Z) :
  let r := GraphQLExceptionFilter.catch
             (GraphQLExceptionFilter.HttpException status response) info t in
  GraphQLExceptionFilter.statusCode r = status
  /\ GraphQLExceptionFilter.code r = GraphQLExceptionFilter.getErrorCode status
  /\ (GraphQLExceptionFilter.code r = "INTERNAL_SERVER_ERROR"%string
      <-> ~ named_status status)
  /\ GraphQLExceptionFilter.getErrorCode HttpStatus.TOO_MANY_REQUESTS
     = "INTERNAL_SERVER_ERROR"%string
  /\ (named_status status -> named_status status' ->
      GraphQLExceptionFilter.getErrorCode status
      = GraphQLExceptionFilter.getErrorCode status' ->
      status = status').
Proof.
  cbv zeta. split; [reflexivity|]. split; [reflexivity|].
  split; [|split; [reflexivity|]].
  - unfold GraphQLExceptionFilter.catch, GraphQLExceptionFilter.code,
      GraphQLExceptionFilter.getErrorCode, named_status, HttpStatus.BAD_REQUEST,
      HttpStatus.UNAUTHORIZED, HttpStatus.FORBIDDEN, HttpStatus.NOT_FOUND,
      HttpStatus.CONFLICT, HttpStatus.UNPROCESSABLE_ENTITY.
    simpl In.
    repeat match goal with
           | |- context [?a =? ?b] => destruct (Z.eqb_spec a b)
           end;
      (split; intros H; [try discriminate H | try reflexivity]);
      intuition lia.
  - unfold named_status. simpl In.
    intros [<-|[<-|[<-|[<-|[<-|[<-|[]]]]]]] [<-|[<-|[<-|[<-|[<-|[<-|[]]]]]]];
      intros H; try reflexivity; discriminate H.
Qed.

(** X20. An error that is no [HttpException] is always answered with
    status 500.  If it has no code, its message is kept back: the answer
    is the fixed [Internal server error] with code
    [INTERNAL_SERVER_ERROR].  If it has a code, the answer carries that
    code and the error's own message, or [Database error] when it has
    none. *)
Theorem filter_other_errors (code message : option string)
    (info : GraphQLExceptionFilter.Info) (t : Z) :
  let r := GraphQLExceptionFilter.catch
             (GraphQLExceptionFilter.OtherError code message) info t in
  GraphQLExceptionFilter.statusCode r = 500
  /\ (truthy code = false ->
      shows r 500 "INTERNAL_SERVER_ERROR" "Internal server error")
  /\ (forall c, code = Some c -> c <> ""%string ->
      GraphQLExceptionFilter.code r = c
      /\ GraphQLExceptionFilter.message r
         = GraphQLExceptionFilter.MessageString
             (match message with
              | Some m => if String.eqb m "" then "Database error"%string else m
              | None => "Database error"%string
              end)).
Proof.
  cbv zeta. unfold GraphQLExceptionFilter.catch, shows.
  split; [destruct (truthy code); reflexivity|]. split.
  - intros ->. repeat split.
  - intros c -> Hc. apply String.eqb_neq in Hc. simpl. rewrite Hc. simpl.
    split; [reflexivity|].
    destruct message as [m|]; [|reflexivity]. simpl.
    destruct (String.eqb m ""); reflexivity.
Qed.

(** ** Search terms, authors and new accounts *)

Lemma like_from_all (pattern : string) :
  (forall t, like pattern t = true) -> forall t, like_from pattern t = true.
Proof. intros Hall t. destruct t; simpl; now rewrite Hall. Qed.

Lemma like_from_empty (t : string) : like_from "" t = true.
Proof. induction t as [|c t IH]; simpl; [reflexivity | exact IH]. Qed.

Lemma like_percents (t : string) : like "%%%" t = true.
Proof.
  change (like (String "%" "%%") t = true).
  rewrite like_percent. revert t. apply like_from_all. intros t.
  change (like (String "%" "%") t = true).
  rewrite like_percent. revert t. apply like_from_all. intros t.
  change (like (String "%" "") t = true).
  rewrite like_percent. apply like_from_empty.
Qed.

Lemma like_any_character (t : string) :
  like "%_%" t = negb (String.eqb t "").
Proof.
  change (like (String "%" "_%") t = negb (String.eqb t "")).
  rewrite like_percent.
  destruct t as [|c t]; [reflexivity|].
  cbn [like_from]. change (like "_%" (String c t)) with (like "%" t).
  change (like (String "%" "") t) with (like (String "%" "") t).
  rewrite like_percent, like_from_empty. reflexivity.
Qed.

(** X21. A search term is a pattern, not a text: the term [%] lists what
    the same filter without a search term lists, and the term [_] lists
    what that filter lists over the posts with a title that is not
    empty. *)
Theorem search_wildcards (pg : PaginationInput.t) (b : option bool)
    (a : option string) (db : Db) :
  PostsService.findAll pg (Some (PostFilterInput.mk (Some "%") b a)) db
  = PostsService.findAll pg (Some (PostFilterInput.mk None b a)) db
  /\ fst (PostsService.findAll pg
            (Some (PostFilterInput.mk (Some "_") b a)) db)
     = fst (PostsService.findAll pg (Some (PostFilterInput.mk None b a))
              (mkDb (users db)
                 (filter (fun p => negb (String.eqb (Post.title p) ""))
                    (posts db)))).
Proof.
  rewrite !posts_findAll_page. cbn [fst posts]. split.
  - replace (filter (PostRepository.matches
                       (PostsService.where_of
                          (Some (PostFilterInput.mk (Some "%") b a))))
               (posts db))
      with (filter (PostRepository.matches
                      (PostsService.where_of
                         (Some (PostFilterInput.mk None b a))))
              (posts db)); [reflexivity|].
    apply filter_ext. intros p.
    unfold PostRepository.matches. simpl.
    now rewrite like_percents.
  - replace (filter (PostRepository.matches
                       (PostsService.where_of
                          (Some (PostFilterInput.mk (Some "_") b a))))
               (posts db))
      with (filter (PostRepository.matches
                      (PostsService.where_of
                         (Some (PostFilterInput.mk None b a))))
              (filter (fun p => negb (String.eqb (Post.title p) ""))
                 (posts db))); [reflexivity|].
    rewrite filter_filter. apply filter_ext. intros p.
    unfold PostRepository.matches. simpl.
    rewrite like_any_character, andb_true_r. apply andb_comm.
Qed.

(** X22. [findByUser] with an id that is not empty is the listing of
    [findAll] filtered by that author, and every post it lists has that
    author. *)
Theorem findByUser_as_filter (userId : string) (pg : PaginationInput.t)
    (db : Db) :
  userId <> ""%string ->
  PostsService.findByUser userId pg db
  = PostsService.findAll pg
      (Some (PostFilterInput.mk None None (Some userId))) db
  /\ (forall p, In p (listed (PostsService.findByUser userId pg db)) ->
                Post.authorId p = userId).
Proof.
  intros Hne. rewrite posts_findByUser_page, posts_findAll_page. split.
  - unfold PostsService.where_of, truthy. cbn [PostFilterInput.authorId
      PostFilterInput.published PostFilterInput.searchTerm].
    apply String.eqb_neq in Hne. now rewrite Hne.
  - unfold listed, page_of. cbn [fst Paginated.items]. intros p Hin.
    apply offset_limit_In, order_desc_In, filter_In in Hin as [_ Hm].
    unfold PostRepository.matches in Hm. simpl in Hm.
    rewrite andb_true_r in Hm. now apply String.eqb_eq.
Qed.

Lemma findByUser_as_filter_witness :
  PostsService.findByUser "1" (PaginationInput.mk None None) Sample.db
  = PostsService.findAll (PaginationInput.mk None None)
      (Some (PostFilterInput.mk None None (Some "1"))) Sample.db.
Proof.
  destruct (findByUser_as_filter "1" (PaginationInput.mk None None) Sample.db)
    as [Hsame _]; [discriminate | exact Hsame].
Defined.

(** X23. A user created while the email is free, the generated uuid new
    and the store takes the write is stored with the hash of the
    password, the role of the input or [user], and is found afterwards
    by email and by id; when the store refuses the write, the call fails
    with [InternalServerError] and nothing is stored. *)
Theorem user_create_round_trip {hasher : Bcrypt}
    (createUserInput : CreateUserInput.t) (env : Env) (db : Db) :
  ~ email_taken (CreateUserInput.email createUserInput) db ->
  no_user (uuid env) db ->
  (db_fault env = false ->
   exists u,
     UsersService.create createUserInput env db
     = (Ok u, mkDb (users db ++ [u]) (posts db))
     /\ User.password u
        = bcrypt_hash (CreateUserInput.password createUserInput) 10 (salt env)
     /\ User.role u = or_else (CreateUserInput.role createUserInput) USER
     /\ UsersService.findByEmail (CreateUserInput.email createUserInput)
          (mkDb (users db ++ [u]) (posts db))
        = (Ok (Some u), mkDb (users db ++ [u]) (posts db))
     /\ UsersService.findOne (User.id u) (mkDb (users db ++ [u]) (posts db))
        = (Ok u, mkDb (users db ++ [u]) (posts db)))
  /\ (db_fault env = true ->
      rejects_with (UsersService.create createUserInput env) db
        (InternalServerErrorException "Failed to create user")).
Proof.
  intros Hfree Hfresh. unfold rejects_with.
  unfold UsersService.create, UserRepository.findOne, UserRepository.insert,
    bind, throw_if, try_catch, ret.
  rewrite (users_find_email_none _ _ Hfree). simpl.
  split; intros ->; [|reflexivity].
  eexists. split; [reflexivity|]. split; [reflexivity|].
  split; [reflexivity|]. split.
  - unfold UsersService.findByEmail, UserRepository.findOne. cbn [users].
    match goal with
    | |- context [find _ (users db ++ [?u])] =>
        pose proof (users_find_email_snoc u db Hfree) as Hfind
    end.
    cbn [User.email] in Hfind. now rewrite Hfind.
  - unfold UsersService.findOne, UserRepository.findOne, bind. cbn [users].
    rewrite find_app_fresh; [reflexivity| |].
    + intros y Hy. unfold UserRepository.matches. simpl.
      rewrite andb_true_r. apply String.eqb_neq. now apply Hfresh.
    + unfold UserRepository.matches. simpl. now rewrite String.eqb_refl.
Qed.

Lemma user_create_round_trip_witness :
  exists u,
    UsersService.create (hasher := Sample.bcrypt)
      (CreateUserInput.mk "bob@example.com" "Bob" "Johnson" "password123" None)
      Sample.env Sample.db
    = (Ok u, mkDb (users Sample.db ++ [u]) (posts Sample.db))
    /\ User.password u = "s$password123"%string
    /\ User.role u = USER.
Proof.
  destruct (user_create_round_trip (hasher := Sample.bcrypt)
              (CreateUserInput.mk "bob@example.com" "Bob" "Johnson"
                 "password123" None)
              Sample.env Sample.db) as [Hok _].
  - intros [u [Hin He]]. simpl in Hin.
    repeat (destruct Hin as [<-|Hin]; [discriminate He|]). exact Hin.
  - intros u Hin. simpl in Hin.
    repeat (destruct Hin as [<-|Hin]; [discriminate|]). contradiction.
  - destruct (Hok eq_refl) as [u [Hrun [Hpw [Hrole _]]]].
    exists u. split; [exact Hrun|]. split; [exact Hpw | exact Hrole].
Defined.

(** ** Seeding *)











(** ** Writes the store refuses *)

(** X26. When the store refuses the write, each mutation of a post by an
    admin or the author fails with [InternalServerError] and its own
    message, and the store is as it was: the post is neither changed nor
    removed. *)
Theorem post_write_refused (P : Post.t) (U : User.t)
    (updatePostInput : UpdatePostInput.t) (env : Env) (db : Db) :
  NoDup (map Post.id (posts db)) ->
  In P (posts db) ->
  canModify P U = true ->
  db_fault env = true ->
  rejects_with (PostsService.update (Post.id P) updatePostInput U env) db
    (InternalServerErrorException "Failed to update post")
  /\ rejects_with (PostsService.remove (Post.id P) U env) db
       (InternalServerErrorException "Failed to delete post")
  /\ rejects_with (PostsService.publishPost (Post.id P) U env) db
       (InternalServerErrorException "Failed to publish post")
  /\ rejects_with (PostsService.unpublishPost (Post.id P) U env) db
       (InternalServerErrorException "Failed to unpublish post").
Proof.
  intros Hnd Hin Hcan Hfault.
  pose proof (posts_findOne_key P db Hnd Hin) as Hfound.
  unfold rejects_with.
  repeat split;
    unfold PostsService.update, PostsService.remove,
      PostsService.publishPost, PostsService.unpublishPost;
    unfold bind at 1; rewrite Hfound;
    unfold bind, throw_if, try_catch, throw, ret,
      PostRepository.save, PostRepository.remove;
    rewrite denied_canModify, Hcan, ?Hfault; reflexivity.
Qed.

Lemma post_write_refused_witness :
  rejects_with
    (PostsService.publishPost "p3" Sample.john (mkEnv "u" 1 "s" true))
    Sample.db (InternalServerErrorException "Failed to publish post").
Proof.
  destruct (post_write_refused Sample.post3 Sample.john
              (UpdatePostInput.mk None None None) (mkEnv "u" 1 "s" true)
              Sample.db) as [_ [_ [Hpublish _]]].
  - repeat (constructor; [simpl; intuition discriminate|]). constructor.
  - simpl. auto.
  - reflexivity.
  - reflexivity.
  - exact Hpublish.
Defined.
